(** * mefs-sdk-go: the request executor and the bucket location cache

    A shallow embedding of [src/bucket-cache.go] and of the request
    execution pipeline of [src/api.go] ([Client.do], [executeMethod]),
    with the properties the specification states about them. *)

From Stdlib Require Import ZArith List String Lia.
From Stdlib.Strings Require Import Byte.
From stdpp Require Import gmap strings list.

Local Open Scope string_scope.
Local Open Scope Z_scope.

(** ** Go values the code handles *)

(** [ErrorResponse], with the fields the code touches. *)
Record ErrorResponse : Type := mkErrorResponse {
  Code : string;
  Message : string;
  Region : string
}.

(** A Go [error] value.  [*url.Error] keeps its three fields; the error it
    wraps is represented by its [Error()] text, the only thing [Client.do]
    reads from it.  [ResponseError] is an [ErrorResponse] used as an error,
    what [httpRespToErrorResponse] hands to [ToErrorResponse].  Every other
    error is known by its text. *)
Inductive error : Type :=
| UrlError (Op URL Err : string)
| ResponseError (e : ErrorResponse)
| ErrorString (msg : string).

(** [bytes.Reader] / [http.Response.Body]: either the live stream handed
    over by the transport (the bytes it would deliver and the error, if any,
    that interrupts reading it), or an in-memory reader over [data]
    positioned at [off]. *)
Inductive Body : Type :=
| Live (data : list byte) (failure : option error)
| Buffered (data : list byte) (off : nat).

(** [http.Response], with the two fields the code touches. *)
Record Response : Type := mkResponse {
  StatusCode : Z;
  RespBody : Body
}.

(** ** bucket-cache.go *)

(** [bucketLocationCache]: the [items] map.  The lock only serialises
    callers; in a sequential model each method is one map operation. *)
Record bucketLocationCache : Type := mkCache {
  items : gmap string string
}.

Definition newBucketLocationCache : bucketLocationCache :=
  {| items := ∅ |}.

Module Cache.

(** [Get]: [location, ok = r.items[bucketName]]; a missing key reads as the
    zero string and [false]. *)
Definition Get (r : bucketLocationCache) (bucketName : string) : string * bool :=
  match items r !! bucketName with
  | Some location => (location, true)
  | None => (EmptyString, false)
  end.

(** [Set]: [r.items[bucketName] = location]. *)
Definition Set_ (r : bucketLocationCache) (bucketName location : string)
  : bucketLocationCache :=
  {| items := <[bucketName := location]> (items r) |}.

(** [Delete]: [delete(r.items, bucketName)]. *)
Definition Delete (r : bucketLocationCache) (bucketName : string)
  : bucketLocationCache :=
  {| items := delete bucketName (items r) |}.

(** [n] successive calls [Set(b, r)] on the same cache. *)
Fixpoint SetTimes (n : nat) (c : bucketLocationCache) (b r : string)
  : bucketLocationCache :=
  match n with
  | O => c
  | S n' => SetTimes n' (Set_ c b r) b r
  end.

End Cache.

(** ** api.go: data *)

(** [context.Context] values are only passed along. *)
Inductive Context : Type :=
| ContextId (n : nat).

(** [http.Request]: the fields that exist for a request value; the code
    sets none of them but the context. *)
Record Request : Type := mkRequest {
  reqMethod : string;
  reqURL : string;
  reqCtx : option Context
}.

(** Identity of an [io.Reader] as far as [executeMethod] compares it. *)
Inductive ReaderIdent : Type :=
| OsStdin
| OsStdout
| OsStderr
| OtherReader (id : nat).

(** A request body: whether its dynamic type implements [io.Seeker] and
    [io.Closer], and which object it is. *)
Record Reader : Type := mkReader {
  isSeeker : bool;
  isCloser : bool;
  ident : ReaderIdent
}.

(** [requestMetadata], with the fields [executeMethod] reads or writes;
    [contentBody] is [None] for a nil interface. *)
Record requestMetadata : Type := mkMetadata {
  bucketName : string;
  objectName : string;
  bucketLocation : string;
  contentBody : option Reader
}.

(** [Client], with the fields the executor reads.  [bucketLocCache] is a
    pointer: [None] is nil, [Some] the cache it points to on entry. *)
Record Client : Type := mkClient {
  region : string;
  isTraceEnabled : bool;
  traceErrorsOnly : bool;
  bucketLocCache : option bucketLocationCache
}.

(** Run-time faults of the Go code. *)
Inductive PanicReason : Type :=
| NilContext
| NilPointerDereference.

Inductive result (A : Type) : Type :=
| Ok (a : A)
| Fault (p : PanicReason).
Arguments Ok {A} a.
Arguments Fault {A} p.

(** What the outside world answers during one attempt: the error of
    [bodySeeker.Seek(0, 0)], the pair returned by [c.httpClient.Do(req)],
    and the error of [c.dumpHTTP(req, resp)]. *)
Record AttemptEnv : Type := mkAttemptEnv {
  seekResult : option error;
  transportResult : option Response * option error;
  dumpResult : option error
}.

(** What an execution does to the outside, in order. *)
Inductive Event : Type :=
| EvAttempt (n : nat)
| EvSeek
| EvDo (req : Request)
| EvReadAll (b : Body)
| EvCloseResponse (b : Body)
| EvDecode (r : Response)
| EvCacheSet (bucket location : string)
| EvCloseBody.

(** The variables an execution of [executeMethod] updates: the named
    results [res] and [err], [metadata.bucketLocation] of the by-value copy
    of the metadata, the cache behind [c.bucketLocCache], and the events so
    far. *)
Record State : Type := mkState {
  res : option Response;
  err : option error;
  mdLocation : string;
  cache : option bucketLocationCache;
  trace : list Event
}.

Definition setRes (r : option Response) (s : State) : State :=
  mkState r (err s) (mdLocation s) (cache s) (trace s).
Definition setErr (e : option error) (s : State) : State :=
  mkState (res s) e (mdLocation s) (cache s) (trace s).
Definition setLocation (l : string) (s : State) : State :=
  mkState (res s) (err s) l (cache s) (trace s).
Definition setCache (c : option bucketLocationCache) (s : State) : State :=
  mkState (res s) (err s) (mdLocation s) c (trace s).
Definition logEv (e : Event) (s : State) : State :=
  mkState (res s) (err s) (mdLocation s) (cache s) (trace s ++ [e]).

(** How one pass through the loop body ends. *)
Inductive Control : Type :=
| Continue (s : State)
| Break (s : State)
| Return (r : option Response) (e : option error) (s : State)
| Panic (p : PanicReason) (s : State).

(** How a call ends. *)
Inductive Outcome : Type :=
| Returned (r : option Response) (e : option error) (s : State)
| Panicked (p : PanicReason) (s : State).

(** Functions and constants the code calls that are defined in other files
    of the package: the retry constant, the text appended to internal
    errors, the constructor of invalid-argument errors, the three
    classifiers and the decoders.  They are parameters of the model.
    [httpRespToErrorResponse] also reports how many bytes of the response
    body it consumed; [xmlDecoder] is used at type [string] only. *)
Class Collaborators : Type := mkCollaborators {
  MaxRetry : Z;
  reportIssue : string;
  ErrInvalidArgument : string -> error;
  isHTTPReqErrorRetryable : error -> bool;
  isS3CodeRetryable : string -> bool;
  isHTTPStatusRetryable : Z -> bool;
  httpRespToErrorResponse : Response -> string -> string -> error * nat;
  ToErrorResponse : error -> ErrorResponse;
  xmlDecoder : Body -> error + string
}.

(** ** Library functions *)

(** [strings.Contains(s, substr)]. *)
Fixpoint Contains (s substr : string) : bool :=
  String.prefix substr s ||
  match s with
  | EmptyString => false
  | String _ s' => Contains s' substr
  end.

(** [ioutil.ReadAll]: the remaining bytes, or the error that interrupted
    the reading. *)
Definition ReadAll (b : Body) : error + list byte :=
  match b with
  | Live data None => inr data
  | Live _ (Some e) => inl e
  | Buffered data off => inr (drop off data)
  end.

(** Reading [n] bytes off a reader, and [Seek(0, 0)] on a [bytes.Reader]. *)
Definition advance (n : nat) (b : Body) : Body :=
  match b with
  | Live data f => Live (drop n data) f
  | Buffered data off => Buffered data (Nat.min (off + n) (length data))
  end.

Definition seekStart (b : Body) : Body :=
  match b with
  | Live data f => Live data f
  | Buffered data _ => Buffered data 0
  end.

(** [WithContext] of [http.Request] (pointer receiver): panics on a nil
    context, then copies the request it is called on, which dereferences
    the receiver. *)
Definition WithContext (r : option Request) (ctx : option Context)
  : result Request :=
  match ctx with
  | None => Fault NilContext
  | Some cx =>
      match r with
      | None => Fault NilPointerDereference
      | Some r0 => Ok (mkRequest (reqMethod r0) (reqURL r0) (Some cx))
      end
  end.

(** ** api.go: the executor *)

(** [successStatus]. *)
Definition successStatus : list Z := [200; 204; 206].

(** The loop of lines 622-626: is [status] one of [successStatus]? *)
Definition isSuccessStatus (status : Z) : bool :=
  existsb (fun httpStatus => httpStatus =? status) successStatus.

(** The three codes of the [switch] of lines 654-659. *)
Definition isRegionCode (code : string) : bool :=
  String.eqb code "AuthorizationHeaderMalformed"
  || String.eqb code "InvalidRegion"
  || String.eqb code "AccessDenied".

(** Lines 561-567: [bodySeeker, isRetryable = contentBody.(io.Seeker)],
    then the [switch] on the three standard streams. *)
Definition bodySeeker (md : requestMetadata) : option ReaderIdent :=
  match contentBody md with
  | Some b => if isSeeker b then Some (ident b) else None
  | None => None
  end.

Definition isRetryable (md : requestMetadata) : bool :=
  match contentBody md with
  | Some b =>
      match bodySeeker md with
      | Some OsStdin | Some OsStdout | Some OsStderr => false
      | _ => isSeeker b
      end
  | None => false
  end.

(** Modelled from the spec: [newRetryTimer], which [executeMethod] ranges
    over and which is defined in another file of the package, produces a
    bounded sequence of go signals, one per allowed attempt; the signals
    carry the attempt numbers from 1. *)
Definition newRetryTimer (maxRetry : Z) : list nat :=
  seq 1 (Z.to_nat maxRetry).

(** The outcome of the region correction of lines 653-679. *)
Inductive RegionStep : Type :=
| RcRetry (s : State)
| RcNone
| RcFault (p : PanicReason).

Section Executor.

Context {K : Collaborators}.

(** Lines 559 and 561-571: the retry budget. *)
Definition reqRetry (md : requestMetadata) : Z :=
  match contentBody md with
  | Some _ => if isRetryable md then MaxRetry else 1
  | None => MaxRetry
  end.

(** [Client.do]. *)
Definition do (c : Client) (req : Request) (a : AttemptEnv)
  : option Response * option error :=
  match transportResult a with
  | (_, Some e) =>
      match e with
      | UrlError op url inner =>
          if Contains inner "EOF"
          then (None,
                Some (UrlError op url
                        ("Connection closed by foreign host " +:+ url
                         +:+ ". Retry again.")))
          else (None, Some e)
      | _ => (None, Some e)
      end
  | (None, None) =>
      (None, Some (ErrInvalidArgument ("Response is empty. " +:+ reportIssue)))
  | (Some resp, None) =>
      if isTraceEnabled c
         && negb (traceErrorsOnly c && (StatusCode resp =? 200))
      then match dumpResult a with
           | Some e => (None, Some e)
           | None => (Some resp, None)
           end
      else (Some resp, None)
  end.

(** Lines 653-679.  A method call through a nil [c.bucketLocCache]
    dereferences it. *)
Definition regionCorrection (c : Client) (md : requestMetadata)
    (errResponse : ErrorResponse) (s : State) : RegionStep :=
  if String.eqb (region c) "" then
    if isRegionCode (Code errResponse) then
      if negb (String.eqb (bucketName md) "")
         && negb (String.eqb (Region errResponse) "")
      then
        match cache s with
        | None => RcFault NilPointerDereference
        | Some bc =>
            if snd (Cache.Get bc (bucketName md))
            then RcRetry
                   (logEv (EvCacheSet (bucketName md) (Region errResponse))
                      (setCache
                         (Some (Cache.Set_ bc (bucketName md)
                                  (Region errResponse))) s))
            else RcNone
        end
      else
        if negb (String.eqb (Region errResponse) (mdLocation s))
        then RcRetry (setLocation (Region errResponse) s)
        else RcNone
    else RcNone
  else RcNone.

(** Lines 681-692: the two classifiers decide between [continue] and
    [break]. *)
Definition genericDecision (errResponse : ErrorResponse) (status : Z)
    (s : State) : Control :=
  if isS3CodeRetryable (Code errResponse) then Continue s
  else if isHTTPStatusRetryable status then Continue s
  else Break s.

(** Lines 628-692: what the loop body does with a response whose status is
    not a success status. *)
Definition onFailureStatus (c : Client) (md : requestMetadata)
    (resp : Response) (s : State) : Control :=
  let s := logEv (EvReadAll (RespBody resp)) s in
  let s := logEv (EvCloseResponse (RespBody resp)) s in
  match ReadAll (RespBody resp) with
  | inl e => Return None (Some e) s
  | inr errBodyBytes =>
      let errBodySeeker := Buffered errBodyBytes 0 in
      let res1 := mkResponse (StatusCode resp) errBodySeeker in
      let s := logEv (EvDecode res1) (setRes (Some res1) s) in
      let '(e, used) :=
        httpRespToErrorResponse res1 (bucketName md) (objectName md) in
      let errResponse := ToErrorResponse e in
      let errBodySeeker := seekStart (advance used errBodySeeker) in
      let res2 := mkResponse (StatusCode resp) errBodySeeker in
      let s := setRes (Some res2) s in
      match regionCorrection c md errResponse s with
      | RcFault p => Panic p s
      | RcRetry s' => Continue s'
      | RcNone => genericDecision errResponse (StatusCode resp) s
      end
  end.

(** Lines 611-692: sending [req] and acting on what [c.do] returns.
    [res.StatusCode] on a nil [res] would dereference it. *)
Definition sendAndDecide (c : Client) (md : requestMetadata) (req : Request)
    (a : AttemptEnv) (s : State) : Control :=
  let '(r, e) := do c req a in
  let s := logEv (EvDo req) (setErr e (setRes r s)) in
  match e with
  | Some e' =>
      if isHTTPReqErrorRetryable e' then Continue s
      else Return None (Some e') s
  | None =>
      match r with
      | None => Panic NilPointerDereference s
      | Some resp =>
          if isSuccessStatus (StatusCode resp)
          then Return (Some resp) None s
          else onFailureStatus c md resp s
      end
  end.

(** Lines 596-692, one pass through the loop body on go signal [n].
    [req0] is the value of the local variable [req] when line 608 calls
    [req.WithContext(ctx)]. *)
Definition loopBody (c : Client) (ctx : option Context)
    (req0 : option Request) (md : requestMetadata) (n : nat)
    (a : AttemptEnv) (s : State) : Control :=
  let s := logEv (EvAttempt n) s in
  let seeked :=
    if isRetryable md
    then (seekResult a, logEv EvSeek (setErr (seekResult a) s))
    else (None, s) in
  match seeked with
  | (Some e, s) => Return None (Some e) s
  | (None, s) =>
      match WithContext req0 ctx with
      | Fault p => Panic p s
      | Ok req => sendAndDecide c md req a s
      end
  end.

(** The state in which the pass on go signal [n] reaches line 604, when
    the seek of lines 596-602 did not fail. *)
Definition enterAttempt (md : requestMetadata) (n : nat) (a : AttemptEnv)
    (s : State) : State :=
  if isRetryable md
  then logEv EvSeek (setErr (seekResult a) (logEv (EvAttempt n) s))
  else logEv (EvAttempt n) s.

(** The state in which a pass that received [resp] and read [bytes] from
    its body reaches line 647. *)
Definition afterBuffering (resp : Response) (bytes : list byte) (s : State)
  : State :=
  let res1 := mkResponse (StatusCode resp) (Buffered bytes 0) in
  setRes (Some res1)
    (logEv (EvDecode res1)
       (setRes (Some res1)
          (logEv (EvCloseResponse (RespBody resp))
             (logEv (EvReadAll (RespBody resp)) s)))).

(** The [for range] of line 591 over the go signals; falling out of the
    loop, by [break] or at its end, reaches [return res, err]. *)
Fixpoint retryLoop (c : Client) (ctx : option Context)
    (req0 : option Request) (md : requestMetadata) (w : nat -> AttemptEnv)
    (signals : list nat) (s : State) : Outcome :=
  match signals with
  | [] => Returned (res s) (err s) s
  | n :: rest =>
      match loopBody c ctx req0 md n (w n) s with
      | Continue s' => retryLoop c ctx req0 md w rest s'
      | Break s' => Returned (res s') (err s') s'
      | Return r e s' => Returned r e s'
      | Panic p s' => Panicked p s'
      end
  end.

(** The state after the go signals [pre], when the pass on each of them
    ended in [continue]. *)
Fixpoint continued (c : Client) (ctx : option Context)
    (req0 : option Request) (md : requestMetadata) (w : nat -> AttemptEnv)
    (pre : list nat) (s : State) : option State :=
  match pre with
  | [] => Some s
  | n :: rest =>
      match loopBody c ctx req0 md n (w n) s with
      | Continue s' => continued c ctx req0 md w rest s'
      | _ => None
      end
  end.

(** The deferred [bodyCloser.Close()] of lines 576-579, run however the
    call ends. *)
Definition closesBody (md : requestMetadata) : bool :=
  match contentBody md with
  | Some b => isCloser b
  | None => false
  end.

Definition deferred (md : requestMetadata) (o : Outcome) : Outcome :=
  if closesBody md then
    match o with
    | Returned r e s => Returned r e (logEv EvCloseBody s)
    | Panicked p s => Panicked p (logEv EvCloseBody s)
    end
  else o.

Definition initialState (c : Client) (md : requestMetadata) : State :=
  mkState None None (bucketLocation md) (bucketLocCache c) [].

(** [executeMethod] with the value [req0] of its local variable [req] at
    line 608 left open. *)
Definition executeMethodWith (req0 : option Request) (c : Client)
    (ctx : option Context) (method : string) (md : requestMetadata)
    (w : nat -> AttemptEnv) : Outcome :=
  deferred md
    (retryLoop c ctx req0 md w (newRetryTimer (reqRetry md))
       (initialState c md)).

(** [executeMethod]: line 605 declares [var req *http.Request] and nothing
    assigns it before line 608, so [req] is nil there. *)
Definition executeMethod : Client -> option Context -> string ->
    requestMetadata -> (nat -> AttemptEnv) -> Outcome :=
  executeMethodWith None.

(** [processBucketLocationResponse]; [resp.Body] on a nil [resp]
    dereferences it. *)
Definition processBucketLocationResponse (resp : option Response)
    (bucket : string) : result (string * option error) :=
  let extract (body : Body) :=
    match xmlDecoder body with
    | inl e => ("", Some e)
    | inr locationConstraint =>
        let location := locationConstraint in
        let location :=
          if String.eqb location "" then "us-east-1" else location in
        let location :=
          if String.eqb location "EU" then "eu-west-1" else location in
        (location, None)
    end in
  match resp with
  | Some r =>
      if negb (StatusCode r =? 200) then
        let e := fst (httpRespToErrorResponse r bucket "") in
        let errResp := ToErrorResponse e in
        if isRegionCode (Code errResp) then
          if String.eqb (Region errResp) ""
          then Ok ("us-east-1", None)
          else Ok (Region errResp, None)
        else Ok ("", Some e)
      else Ok (extract (RespBody r))
  | None => Fault NilPointerDereference
  end.

(** The error response line 641 decodes from the response buffered out of
    [resp] and [bytes]. *)
Definition decoded (md : requestMetadata) (resp : Response)
    (bytes : list byte) : ErrorResponse :=
  ToErrorResponse
    (fst (httpRespToErrorResponse
            (mkResponse (StatusCode resp) (Buffered bytes 0))
            (bucketName md) (objectName md))).

(** The state a pass through the loop body leaves. *)
Definition controlState (k : Control) : State :=
  match k with
  | Continue s => s
  | Break s => s
  | Return _ _ s => s
  | Panic _ s => s
  end.

(** The state of the pass on go signal [n] that got past the seek, once
    [c.do] has returned the response [resp] and a nil error for the request
    [req]. *)
Definition afterDo (md : requestMetadata) (n : nat) (a : AttemptEnv)
    (req : Request) (resp : Response) (s : State) : State :=
  logEv (EvDo req) (setErr None (setRes (Some resp) (enterAttempt md n a s))).



End Executor.

(** The go signals an execution has consumed so far. *)
Definition isAttempt (e : Event) : bool :=
  match e with
  | EvAttempt _ => true
  | _ => false
  end.

Definition attempts (s : State) : nat :=
  length (filter (fun e => isAttempt e = true) (trace s)).

Definition finalState (o : Outcome) : State :=
  match o with
  | Returned _ _ s => s
  | Panicked _ s => s
  end.

(** ** A sample instance of the collaborators, for closed examples *)

(** Modelled from the spec: the classifier of HTTP statuses answers true
    for the 5xx statuses and for 429. *)
Definition sampleStatusRetryable (status : Z) : bool :=
  ((500 <=? status) && (status <? 600)) || (status =? 429).

(** Modelled from the spec: the classifier of error codes answers true for
    server-side codes (internal error, slow down, service unavailable) and
    false for access-control and malformed-request codes. *)
Definition sampleCodeRetryable (code : string) : bool :=
  String.eqb code "InternalError"
  || String.eqb code "SlowDown"
  || String.eqb code "ServiceUnavailable".

(** Modelled from the spec: transport-level transient errors, here the
    [url.Error] values, are retried; other request errors are not. *)
Definition sampleReqErrorRetryable (e : error) : bool :=
  match e with
  | UrlError _ _ _ => true
  | _ => false
  end.

Definition sampleToErrorResponse (e : error) : ErrorResponse :=
  match e with
  | ResponseError r => r
  | UrlError _ _ msg => mkErrorResponse "InternalError" msg ""
  | ErrorString msg => mkErrorResponse "InternalError" msg ""
  end.

(** A location constraint travels as its plain text. *)
Definition sampleXmlDecoder (b : Body) : error + string :=
  match ReadAll b with
  | inl e => inl e
  | inr bytes => inr (string_of_list_byte bytes)
  end.

(** The instance for a gateway whose every error body decodes to [answer];
    the decoder consumes the whole body. *)
Definition sampleCollaborators (answer : ErrorResponse) : Collaborators :=
  {| MaxRetry := 5;
     reportIssue := "Please report this issue.";
     ErrInvalidArgument :=
       fun msg => ResponseError (mkErrorResponse "InvalidArgument" msg "");
     isHTTPReqErrorRetryable := sampleReqErrorRetryable;
     isS3CodeRetryable := sampleCodeRetryable;
     isHTTPStatusRetryable := sampleStatusRetryable;
     httpRespToErrorResponse :=
       fun resp _ _ =>
         (ResponseError answer,
          match ReadAll (RespBody resp) with
          | inr bytes => length bytes
          | inl _ => 0%nat
          end);
     ToErrorResponse := sampleToErrorResponse;
     xmlDecoder := sampleXmlDecoder |}.

Definition accessDenied (hint : string) : ErrorResponse :=
  mkErrorResponse "AccessDenied" "Access Denied." hint.

Definition serviceUnavailable : ErrorResponse :=
  mkErrorResponse "ServiceUnavailable" "Please reduce your request rate." "".

(** Gateways: one that answers every failure with [AccessDenied] and the
    region "eu-west-1", one that answers it without a region, one that
    answers [ServiceUnavailable]. *)
Definition gatewayEU : Collaborators :=
  sampleCollaborators (accessDenied "eu-west-1").
Definition gatewayNoHint : Collaborators :=
  sampleCollaborators (accessDenied "").
Definition gatewayBusy : Collaborators :=
  sampleCollaborators serviceUnavailable.

(** A client without a fixed region whose cache holds [entries]. *)
Definition clientWith (entries : gmap string string) : Client :=
  mkClient "" false false (Some (mkCache entries)).

Definition someRequest : Request :=
  mkRequest "GET" "http://127.0.0.1:6711/" None.
Definition sentRequest : Request :=
  mkRequest "GET" "http://127.0.0.1:6711/" (Some (ContextId 0)).
Definition background : option Context := Some (ContextId 0).

Definition noBody (bucket location : string) : requestMetadata :=
  mkMetadata bucket "" location None.
Definition withBody (b : Reader) : requestMetadata :=
  mkMetadata "bucket01" "object01" "" (Some b).
Definition stdinBody : Reader := mkReader true true OsStdin.
Definition fileBody : Reader := mkReader true true (OtherReader 7).

Definition deniedBytes : list byte := list_byte_of_string "denied".
Definition okResponse : Response :=
  mkResponse 200 (Live (list_byte_of_string "EU") None).
Definition forbidden : Response := mkResponse 403 (Live deniedBytes None).
Definition unavailable : Response :=
  mkResponse 503 (Live (list_byte_of_string "busy") None).
Definition truncated : Response :=
  mkResponse 403 (Live deniedBytes (Some (ErrorString "unexpected EOF"))).

(** Worlds: every attempt gets the same response; the first two attempts
    get a 503 and the later ones a 200; every seek fails. *)
Definition always (resp : Response) : nat -> AttemptEnv :=
  fun _ => mkAttemptEnv None (Some resp, None) None.
Definition busyTwice : nat -> AttemptEnv :=
  fun n =>
    mkAttemptEnv None
      (Some (if (n <? 3)%nat then unavailable else okResponse), None) None.
Definition seekFails : nat -> AttemptEnv :=
  fun _ => mkAttemptEnv (Some (ErrorString "seek failed"))
             (Some okResponse, None) None.

(** The state of the call of the second world after its first two
    attempts. *)
Definition afterTwoBusy : State :=
  default (initialState (clientWith ∅) (noBody "bucket01" ""))
    (continued (K := gatewayBusy) (clientWith ∅) background
       (Some someRequest) (noBody "bucket01" "") busyTwice [1%nat; 2%nat]
       (initialState (clientWith ∅) (noBody "bucket01" ""))).

(** ** Further notions for stating properties *)

(** Of a returned pair, exactly one component is nil. *)
Definition oneOf (r : option Response) (e : option error) : Prop :=
  (r = None /\ e <> None) \/ (r <> None /\ e = None).

(** What a pass leaves in [res] and [err], or returns. *)
Definition passResult (k : Control) : option (option Response * option error) :=
  match k with
  | Continue s => Some (res s, err s)
  | Break s => Some (res s, err s)
  | Return r e _ => Some (r, e)
  | Panic _ _ => None
  end.

(** The deferred close of the request body in a trace. *)
Definition isCloseBody (e : Event) : bool :=
  match e with
  | EvCloseBody => true
  | _ => false
  end.

Definition bodyCloses (s : State) : nat :=
  length (filter (fun e => isCloseBody e = true) (trace s)).

(** The names the cache behind the pointer holds; nothing for nil. *)
Definition cachedNames (c : option bucketLocationCache) : gset string :=
  match c with
  | Some bc => dom (items bc)
  | None => ∅
  end.

(** The collaborators [K] with another retry constant. *)
Definition withMaxRetry (n : Z) (K : Collaborators) : Collaborators :=
  {| MaxRetry := n;
     reportIssue := @reportIssue K;
     ErrInvalidArgument := @ErrInvalidArgument K;
     isHTTPReqErrorRetryable := @isHTTPReqErrorRetryable K;
     isS3CodeRetryable := @isS3CodeRetryable K;
     isHTTPStatusRetryable := @isHTTPStatusRetryable K;
     httpRespToErrorResponse := @httpRespToErrorResponse K;
     ToErrorResponse := @ToErrorResponse K;
     xmlDecoder := @xmlDecoder K |}.

(** The cache [c1] holds the names [c0] holds, with the entries of [c0]
    for every name but [bucket]; a nil pointer stays nil. *)
Definition sameNames (bucket : string) (c0 c1 : option bucketLocationCache)
  : Prop :=
  match c0, c1 with
  | None, None => True
  | Some a, Some b =>
      dom (items b) = dom (items a)
      /\ forall k : string, k <> bucket -> items b !! k = items a !! k
  | _, _ => False
  end.


(** The part of the state a pass may change only through the region
    correction. *)
Definition keeps (c : Client) (md : requestMetadata) (s s' : State) : Prop :=
  sameNames (bucketName md) (cache s) (cache s')
  /\ bodyCloses s' = bodyCloses s
  /\ (region c <> "" -> cache s' = cache s /\ mdLocation s' = mdLocation s).

(** [sub] occurs in [s]. *)
Definition occursIn (sub s : string) : Prop :=
  exists pre post : string, s = pre +:+ sub +:+ post.


(** ** api.go: tracing switches and the user agent *)

(** An [io.Writer] as far as [TraceOn] tells them apart. *)
Inductive Writer : Type :=
| OsStdoutWriter
| OtherWriter (id : nat).

(** [appInfo] of [Client]. *)
Record AppInfo : Type := mkAppInfo {
  appName : string;
  appVersion : string
}.

(** A [Client] with the fields the setters below write in addition to
    those the executor reads; [traceOutput] is [None] for a nil writer. *)
Record ClientSettings : Type := mkSettings {
  client : Client;
  traceOutput : option Writer;
  appInfo : AppInfo
}.

Definition setTraceFlags (enabled errorsOnly : bool) (c : Client) : Client :=
  mkClient (region c) enabled errorsOnly (bucketLocCache c).

(** [TraceOn]: a nil [outputStream] defaults to [os.Stdout]. *)
Definition TraceOn (outputStream : option Writer) (c : ClientSettings)
  : ClientSettings :=
  let outputStream :=
    match outputStream with
    | None => Some OsStdoutWriter
    | Some o => Some o
    end in
  mkSettings (setTraceFlags true (traceErrorsOnly (client c)) (client c))
    outputStream (appInfo c).

(** [TraceErrorsOnlyOn]. *)
Definition TraceErrorsOnlyOn (outputStream : option Writer)
    (c : ClientSettings) : ClientSettings :=
  let c := TraceOn outputStream c in
  mkSettings (setTraceFlags (isTraceEnabled (client c)) true (client c))
    (traceOutput c) (appInfo c).

(** [TraceErrorsOnlyOff]. *)
Definition TraceErrorsOnlyOff (c : ClientSettings) : ClientSettings :=
  mkSettings (setTraceFlags (isTraceEnabled (client c)) false (client c))
    (traceOutput c) (appInfo c).

(** [TraceOff]. *)
Definition TraceOff (c : ClientSettings) : ClientSettings :=
  mkSettings (setTraceFlags false false (client c)) (traceOutput c)
    (appInfo c).

(** A call of one of the four switches, and a run of such calls. *)
Inductive TraceCall : Type :=
| CallTraceOn (outputStream : option Writer)
| CallTraceErrorsOnlyOn (outputStream : option Writer)
| CallTraceErrorsOnlyOff
| CallTraceOff.

Definition traceCall (c : ClientSettings) (t : TraceCall) : ClientSettings :=
  match t with
  | CallTraceOn o => TraceOn o c
  | CallTraceErrorsOnlyOn o => TraceErrorsOnlyOn o c
  | CallTraceErrorsOnlyOff => TraceErrorsOnlyOff c
  | CallTraceOff => TraceOff c
  end.

Definition traceCalls (calls : list TraceCall) (c : ClientSettings)
  : ClientSettings :=
  foldl traceCall c calls.

(** [SetAppInfo]: nothing is stored unless both texts are non-empty. *)
Definition SetAppInfo (name version : string) (c : ClientSettings)
  : ClientSettings :=
  if negb (String.eqb name "") && negb (String.eqb version "")
  then mkSettings (client c) (traceOutput c) (mkAppInfo name version)
  else c.

Definition setAppInfos (calls : list (string * string)) (c : ClientSettings)
  : ClientSettings :=
  foldl (fun c nv => SetAppInfo (fst nv) (snd nv) c) c calls.

(** [http.Header] and its [Set], for a key in canonical form. *)
Abbreviation Header := (gmap string (list string)).

Definition HeaderSet (key value : string) (h : Header) : Header :=
  <[key := [value]]> h.

(** [libraryUserAgent], for the values of [runtime.GOOS] and
    [runtime.GOARCH]. *)
Definition libraryName : string := "minio-go".
Definition libraryVersion : string := "v6.0.40".
Definition libraryUserAgentPrefix (goos goarch : string) : string :=
  "MinIO (" +:+ goos +:+ "; " +:+ goarch +:+ ") ".
Definition libraryUserAgent (goos goarch : string) : string :=
  libraryUserAgentPrefix goos goarch +:+ libraryName +:+ "/"
  +:+ libraryVersion.

(** [setUserAgent], as a function of the request's header. *)
Definition setUserAgent (goos goarch : string) (c : ClientSettings)
    (h : Header) : Header :=
  let h := HeaderSet "User-Agent" (libraryUserAgent goos goarch) h in
  if negb (String.eqb (appName (appInfo c)) "")
     && negb (String.eqb (appVersion (appInfo c)) "")
  then HeaderSet "User-Agent"
         (libraryUserAgent goos goarch +:+ " " +:+ appName (appInfo c)
          +:+ "/" +:+ appVersion (appInfo c)) h
  else h.

(** The last call of a run of [SetAppInfo] calls that had two non-empty
    texts. *)
Definition lastComplete (calls : list (string * string))
  : option (string * string) :=
  last (filter (fun nv => fst nv <> "" /\ snd nv <> "") calls).

(** A client as [new(Client)] leaves these fields. *)
Definition freshSettings (c : Client) : ClientSettings :=
  mkSettings (setTraceFlags false false c) None (mkAppInfo "" "").


(** ** api.go: [redirectHeaders] *)

(** Modelled from the spec: [credentials.SignatureType], declared in the
    credentials package; its values include the anonymous, the legacy V2,
    the V4 and the unset or default signer, and [IsV2] recognises the
    second. *)
Inductive SignatureType : Type :=
| SignatureDefault
| SignatureV4
| SignatureV2
| SignatureAnonymous.

Definition IsV2 (t : SignatureType) : bool :=
  match t with
  | SignatureV2 => true
  | _ => false
  end.

Definition sameSigner (a b : SignatureType) : bool :=
  match a, b with
  | SignatureDefault, SignatureDefault => true
  | SignatureV4, SignatureV4 => true
  | SignatureV2, SignatureV2 => true
  | SignatureAnonymous, SignatureAnonymous => true
  | _, _ => false
  end.

(** [credentials.Value], what [c.credsProvider.Get()] returns. *)
Record Value : Type := mkValue {
  AccessKeyID : string;
  SecretAccessKey : string;
  SignerType : SignatureType
}.

(** An [http.Request] as [redirectHeaders] sees it. *)
Record RedirectRequest : Type := mkRedirect {
  Host : string;
  ReqHeader : Header
}.

(** One pass of the [range] over [lastRequest.Header]: the header of
    [req] so far and [reAuth]. *)
Definition copyHeader (reqHost lastHost : string) (st : Header * bool)
    (entry : string * list string) : Header * bool :=
  let '(h, reAuth) := st in
  let '(attr, val) := entry in
  if String.eqb attr "Authorization" && negb (String.eqb reqHost lastHost)
  then (h, true)
  else
    match h !! attr with
    | Some _ => (h, reAuth)
    | None => (<[attr := val]> h, reAuth)
    end.

(** [redirectHeaders]: the header of [req] it leaves and the error it
    returns.  [override] is [c.overrideSignerType], [credsGet] what
    [c.credsProvider.Get()] answers, and [order] the entries of
    [lastRequest.Header] in the order the [range] visits them. *)
Definition redirectHeaders (override : SignatureType)
    (credsGet : error + Value) (req : RedirectRequest)
    (via : list RedirectRequest) (order : list (string * list string))
  : Header * option error :=
  if (5 <=? length via)%nat
  then (ReqHeader req, Some (ErrorString "stopped after 5 redirects"))
  else
    match last via with
    | None => (ReqHeader req, None)
    | Some lastRequest =>
        let '(h, reAuth) :=
          foldl (copyHeader (Host req) (Host lastRequest))
            (ReqHeader req, false) order in
        match credsGet with
        | inl e => (h, Some e)
        | inr value =>
            let signerType := SignerType value in
            let signerType :=
              if negb (sameSigner override SignatureDefault)
              then override else signerType in
            let signerType :=
              if sameSigner (SignerType value) SignatureAnonymous
              then SignatureAnonymous else signerType in
            if reAuth
            then if IsV2 signerType
                 then (h, Some (ErrorString
                                  "signature V2 cannot support redirection"))
                 else (h, None)
            else (h, None)
        end
    end.

(** The header [attr] is Authorization and the redirect changes host. *)
Definition crossHostAuth (reqHost lastHost attr : string) : bool :=
  String.eqb attr "Authorization" && negb (String.eqb reqHost lastHost).


(** ** api.go: the constructors *)

(** [BucketLookupType]. *)
Inductive BucketLookupType : Type :=
| BucketLookupAuto
| BucketLookupDNS
| BucketLookupPath.

(** The credential providers the constructors build or are given. *)
Inductive Credentials : Type :=
| StaticV2 (id secret token : string)
| StaticV4 (id secret token : string)
| OtherCredentials (n : nat).

(** [Client] with all its fields; of [httpClient] only whether it is set,
    and [random], which nothing sets, is left out. *)
Record FullClient : Type := mkFull {
  settings : ClientSettings;
  url : string;
  credsProvider : option Credentials;
  overrideSignerType : SignatureType;
  secure : bool;
  httpClientSet : bool;
  s3AccelerateEndpoint : string;
  lookup : BucketLookupType
}.

(** The operating system and the libraries [privateNew] consults:
    [os.Getenv], [homedir.Expand], [path.Join], [os.Stat],
    [ioutil.ReadFile], [strings.TrimSpace], [ma.NewMultiaddr] and
    [manet.DialArgs] (a multiaddr is a number here; [None] stands for an
    error). *)
Record System : Type := mkSystem {
  Getenv : string -> string;
  homedirExpand : string -> error + string;
  pathJoin : string -> string -> string;
  osStat : string -> option error;
  ReadFile : string -> error + string;
  TrimSpace : string -> string;
  NewMultiaddr : string -> option nat;
  DialArgs : nat -> option (string * string)
}.

Definition DefaultPathName : string := ".mefs".
Definition DefaultPathRoot : string := "~/" +:+ DefaultPathName.
Definition DefaultApiFile : string := "api".
Definition EnvDir : string := "MEFS_PATH".

(** [new(Client)]. *)
Definition zeroClient : FullClient :=
  mkFull (mkSettings (mkClient "" false false None) None (mkAppInfo "" ""))
    "" None SignatureDefault false false "" BucketLookupAuto.

(** [privateNew]. *)
Definition privateNew (sys : System) (endpoint : string)
    (creds : option Credentials) (secure : bool) (region : string)
    (lookup : BucketLookupType) : error + FullClient :=
  let located : error + string :=
    if String.eqb region "local" then
      let baseDir := Getenv sys EnvDir in
      let baseDir :=
        if String.eqb baseDir "" then DefaultPathRoot else baseDir in
      match homedirExpand sys baseDir with
      | inl e => inl e
      | inr baseDir =>
          let apiFile := pathJoin sys baseDir DefaultApiFile in
          match osStat sys apiFile with
          | Some e => inl e
          | None =>
              match ReadFile sys apiFile with
              | inl e => inl e
              | inr api => inr (TrimSpace sys api)
              end
          end
      end
    else inr endpoint in
  match located with
  | inl e => inl e
  | inr endpoint =>
      let clnt := zeroClient in
      let endpoint :=
        match NewMultiaddr sys endpoint with
        | Some a =>
            match DialArgs sys a with
            | Some (_, host) => host
            | None => endpoint
            end
        | None => endpoint
        end in
      let 'mkFull st _ _ override _ _ accelerate lk := clnt in
      inr (mkFull st endpoint creds override secure true accelerate lk)
  end.

Definition setOverride (t : SignatureType) (c : FullClient) : FullClient :=
  mkFull (settings c) (url c) (credsProvider c) t (secure c)
    (httpClientSet c) (s3AccelerateEndpoint c) (lookup c).

(** [NewV2], [NewV4], [New], [NewWithCredentials], [NewWithRegion]. *)
Definition NewV2 (sys : System) (endpoint accessKeyID secretAccessKey : string)
    (secure : bool) : error + FullClient :=
  match privateNew sys endpoint
          (Some (StaticV2 accessKeyID secretAccessKey "")) secure ""
          BucketLookupAuto with
  | inl e => inl e
  | inr clnt => inr (setOverride SignatureV2 clnt)
  end.

Definition NewV4 (sys : System) (endpoint accessKeyID secretAccessKey : string)
    (secure : bool) : error + FullClient :=
  match privateNew sys endpoint
          (Some (StaticV4 accessKeyID secretAccessKey "")) secure ""
          BucketLookupAuto with
  | inl e => inl e
  | inr clnt => inr (setOverride SignatureV4 clnt)
  end.

Definition New (sys : System) (endpoint accessKeyID secretAccessKey : string)
    (secure : bool) : error + FullClient :=
  privateNew sys endpoint (Some (StaticV4 accessKeyID secretAccessKey ""))
    secure "" BucketLookupAuto.

Definition NewWithCredentials (sys : System) (endpoint : string)
    (creds : option Credentials) (secure : bool) (region : string)
  : error + FullClient :=
  privateNew sys endpoint creds secure region BucketLookupAuto.

Definition NewWithRegion (sys : System)
    (endpoint accessKeyID secretAccessKey : string) (secure : bool)
    (region : string) : error + FullClient :=
  privateNew sys endpoint (Some (StaticV4 accessKeyID secretAccessKey ""))
    secure region BucketLookupAuto.

(** The client of the executor inside a constructed client. *)
Definition executorClient (c : FullClient) : Client := client (settings c).

(** A system without a configuration directory, on which every endpoint
    text is taken as it is. *)
Definition bareSystem : System :=
  mkSystem (fun _ => "") (fun _ => inl (ErrorString "no home directory"))
    (fun dir file => dir +:+ "/" +:+ file)
    (fun _ => Some (ErrorString "no such file"))
    (fun _ => inl (ErrorString "no such file")) (fun s => s)
    (fun _ => None) (fun _ => None).


(** ** api-stat.go: [StatObject] *)

(** [ObjectStat] and [Objects] of api-datatypes.go. *)
Record ObjectStat : Type := mkObjectStat {
  ObjectName : string;
  ObjectSize : Z;
  MD5 : string;
  Ctime : string;
  Dir : bool;
  LatestChalTime : string
}.

Record Objects : Type := mkObjects {
  Method : string;
  ObjectList : list ObjectStat
}.

(** [time.Time]: the zero time or an instant. *)
Inductive Time : Type :=
| ZeroTime
| Instant (seconds : Z).

(** [ObjectInfo], with the fields [statObject] fills; the others keep
    their zero values. *)
Record ObjectInfo : Type := mkObjectInfo {
  ETag : string;
  Key : string;
  LastModified : Time;
  Size : Z
}.

Definition zeroObjectInfo : ObjectInfo := mkObjectInfo "" "" ZeroTime 0.

(** The request [c.Request(command, args...)] builds, with the options
    set on it. *)
Record RequestBuilder : Type := mkRequestBuilder {
  command : string;
  args : list string;
  options : list (string * string)
}.

Definition Request_ (command : string) (args : list string) : RequestBuilder :=
  mkRequestBuilder command args [].

Definition Option_ (key value : string) (rb : RequestBuilder)
  : RequestBuilder :=
  mkRequestBuilder (command rb) (args rb) (options rb ++ [(key, value)]).

(** What [statObject] calls outside this package and on the gateway: the
    two validators of s3utils, [c.credsProvider.Get()], [rb.Exec] decoding
    the answer into an [Objects], and [time.Parse] with the layout
    [SHOWTIME]. *)
Record StatWorld : Type := mkStatWorld {
  CheckValidBucketName : string -> option error;
  CheckValidObjectName : string -> option error;
  credsGet : error + Value;
  Exec : RequestBuilder -> error + Objects;
  timeParse : string -> error + Time
}.

(** How [statObject] ends: with its two results, or in the run-time panic
    of an index out of range. *)
Inductive StatOutcome : Type :=
| StatReturned (info : ObjectInfo) (e : option error)
| StatIndexOutOfRange.

(** [statObject]. *)
Definition statObject (sw : StatWorld) (bucket object : string)
  : StatOutcome :=
  match CheckValidBucketName sw bucket with
  | Some e => StatReturned zeroObjectInfo (Some e)
  | None =>
      match CheckValidObjectName sw object with
      | Some e => StatReturned zeroObjectInfo (Some e)
      | None =>
          let rb := Request_ "lfs/head_object" [bucket; object] in
          match credsGet sw with
          | inl e => StatReturned zeroObjectInfo (Some e)
          | inr creds =>
              let rb := Option_ "address" (AccessKeyID creds) rb in
              match Exec sw rb with
              | inl e => StatReturned zeroObjectInfo (Some e)
              | inr objs =>
                  match ObjectList objs with
                  | [] => StatIndexOutOfRange
                  | first :: _ =>
                      let t :=
                        match timeParse sw (Ctime first) with
                        | inr t => t
                        | inl _ => ZeroTime
                        end in
                      StatReturned
                        (mkObjectInfo (MD5 first) (ObjectName first) t
                           (ObjectSize first))
                        None
                  end
              end
          end
      end
  end.

(** [StatObject]: the same validation, then [statObject]. *)
Definition StatObject (sw : StatWorld) (bucket object : string)
  : StatOutcome :=
  match CheckValidBucketName sw bucket with
  | Some e => StatReturned zeroObjectInfo (Some e)
  | None =>
      match CheckValidObjectName sw object with
      | Some e => StatReturned zeroObjectInfo (Some e)
      | None => statObject sw bucket object
      end
  end.

(** ** The list types and their [String] methods *)

Definition newline : string := String (Ascii.ascii_of_nat 10) "".

(** [StringList.String]: each element and a newline are written to the
    buffer in turn. *)
Definition StringList_String (ChildLists : list string) : string :=
  foldl (fun buffer s => (buffer +:+ s) +:+ newline) "" ChildLists.

(** [PeerState] and its [String]. *)
Record PeerState : Type := mkPeerState {
  PeerID : string;
  Connected : bool
}.

Definition PeerState_String (ps : PeerState) : string :=
  if Connected ps then PeerID ps +:+ " connected"
  else PeerID ps +:+ " unconnected".

(** [PeerList.String]: [res += ps.String() + "\n"] for each peer. *)
Definition PeerList_String (Peers : list PeerState) : string :=
  foldl (fun res ps => res +:+ (PeerState_String ps +:+ newline)) "" Peers.

(** ** examples/minio/main.go: [fillRandom] *)

(** The inner loop: from [j], while [i+j < len(p) && j < 7], store
    [byte(val)] at [i+j] and shift [val] right by 8.  [fuel] bounds the
    number of passes; 7 is enough. *)
Fixpoint fillChunk (fuel : nat) (p : list Z) (i j : nat) (val : Z) : list Z :=
  match fuel with
  | O => p
  | S fuel' =>
      if (i + j <? length p)%nat && (j <? 7)%nat
      then fillChunk fuel' (<[(i + j)%nat := Z.land val 255]> p) i (S j)
             (Z.shiftr val 8)
      else p
  end.

(** The outer loop: from [i], in steps of 7 while [i < len(p)], draw
    [rand.Int63()] and fill the chunk at [i].  [rnd n] is the value of the
    [n]-th draw and [calls] the number of draws made; [fuel] bounds the
    number of passes; [len(p)] is enough. *)
Fixpoint fillFrom (fuel : nat) (rnd : nat -> Z) (calls : nat) (p : list Z)
    (i : nat) : list Z :=
  match fuel with
  | O => p
  | S fuel' =>
      if (i <? length p)%nat
      then fillFrom fuel' rnd (S calls) (fillChunk 7 p i 0 (rnd calls))
             (i + 7)
      else p
  end.

(** [fillRandom]: the slice after the call. *)
Definition fillRandom (rnd : nat -> Z) (p : list Z) : list Z :=
  fillFrom (length p) rnd 0 p 0.


(** ** Further sample values *)

Definition gatewayNoRetry : Collaborators := withMaxRetry 0 gatewayBusy.

Definition fatalError : error := ErrorString "unsupported protocol scheme".
Definition eofError : error :=
  UrlError "Get" "http://127.0.0.1:6711/" "unexpected EOF".

Definition regionalClient : Client :=
  mkClient "us-east-1" false false
    (Some (mkCache {[ "b" := "us-east-1" ]})).

Definition sampleTraceCalls : list TraceCall :=
  [CallTraceErrorsOnlyOn None; CallTraceOn (Some (OtherWriter 1));
   CallTraceOff; CallTraceOn None].

Definition redirected : RedirectRequest :=
  mkRedirect "b.example" {[ "Accept" := ["*/*"] ]}.
Definition original : RedirectRequest :=
  mkRedirect "a.example"
    (<["Authorization" := ["AWS4-HMAC-SHA256 Credential=k"]]>
       (<["Accept" := ["text/xml"]]> {[ "X-Amz-Date" := ["20200101"] ]})).
Definition v2Value : Value := mkValue "key" "secret" SignatureV2.

Definition nonEmptyName (what name : string) : option error :=
  if String.eqb name "" then Some (ErrorString (what +:+ " name cannot be empty"))
  else None.

(** A gateway whose answer to every request is [answer]. *)
Definition statWorld (answer : error + Objects) : StatWorld :=
  mkStatWorld (nonEmptyName "Bucket") (nonEmptyName "Object")
    (inr (mkValue "0xD604" "123456" SignatureV4)) (fun _ => answer)
    (fun _ => inl (ErrorString "cannot parse")).

(** Draws whose seven low bytes are 1 to 7, then 8 to 14, and so on. *)
Definition countingDraws (n : nat) : Z :=
  let b := Z.of_nat (7 * n) in
  (b + 1) + Z.shiftl (b + 2) 8 + Z.shiftl (b + 3) 16 + Z.shiftl (b + 4) 24
  + Z.shiftl (b + 5) 32 + Z.shiftl (b + 6) 40 + Z.shiftl (b + 7) 48.


(** * Properties *)

(** ** The bucket location cache *)

Lemma Set_twice (c : bucketLocationCache) (b r : string) :
  Cache.Set_ (Cache.Set_ c b r) b r = Cache.Set_ c b r.
Proof.
  unfold Cache.Set_; simpl. f_equal. apply insert_insert_eq.
Qed.

Lemma SetTimes_succ (n : nat) (c : bucketLocationCache) (b r : string) :
  Cache.SetTimes (S n) c b r = Cache.Set_ c b r.
Proof.
  revert c. induction n as [|n IH]; intros c.
  - reflexivity.
  - change (Cache.SetTimes (S (S n)) c b r)
      with (Cache.SetTimes (S n) (Cache.Set_ c b r) b r).
    rewrite IH. apply Set_twice.
Qed.

Lemma Get_Set_same (c : bucketLocationCache) (b r : string) :
  Cache.Get (Cache.Set_ c b r) b = (r, true).
Proof.
  unfold Cache.Get, Cache.Set_; simpl. by rewrite lookup_insert_eq.
Qed.

Lemma Get_Set_other (c : bucketLocationCache) (b b' r : string) :
  b' <> b -> Cache.Get (Cache.Set_ c b r) b' = Cache.Get c b'.
Proof.
  intros Hne. unfold Cache.Get, Cache.Set_; simpl.
  rewrite lookup_insert_ne; [reflexivity | congruence].
Qed.

(** C9.  One or more calls [Set(b, r)] with the same arguments leave the
    cache as a single call does: [Get(b)] answers [(r, true)] and what
    [Get] answers for any other bucket name is what it answered before. *)
Theorem Set_idempotent (n : nat) (c : bucketLocationCache) (b r : string) :
  Cache.SetTimes (S n) c b r = Cache.Set_ c b r
  /\ Cache.Get (Cache.SetTimes (S n) c b r) b = (r, true)
  /\ forall b' : string,
       b' <> b -> Cache.Get (Cache.SetTimes (S n) c b r) b' = Cache.Get c b'.
Proof.
  rewrite SetTimes_succ. split; [reflexivity|]. split.
  - apply Get_Set_same.
  - intros b' Hne. by apply Get_Set_other.
Qed.

Lemma Set_idempotent_witness :
  "photos" <> "music"
  /\ Cache.Get
       (Cache.SetTimes 3 (mkCache {[ "photos" := "us-east-1" ]})
          "music" "eu-west-1") "photos"
     = Cache.Get (mkCache {[ "photos" := "us-east-1" ]}) "photos".
Proof.
  split; [discriminate|].
  apply (Set_idempotent 2 (mkCache {[ "photos" := "us-east-1" ]})
           "music" "eu-west-1").
  discriminate.
Defined.

Section ExecutorFacts.

Context {K : Collaborators}.

(** ** [Client.do] *)

(** C7.  [do] never returns a nil response together with a nil error: it
    returns either a response and no error, or no response and an error;
    and when the transport yields neither a response nor an error, the
    error is the invalid-argument error built from the fixed text
    "Response is empty. " followed by [reportIssue], which depends on no
    gateway response. *)
Theorem do_never_nil_nil (c : Client) (req : Request) (a : AttemptEnv) :
  ((exists resp, do c req a = (Some resp, None))
   \/ (exists e, do c req a = (None, Some e)))
  /\ forall (sk dump : option error),
       do c req (mkAttemptEnv sk (None, None) dump)
       = (None,
          Some (ErrInvalidArgument ("Response is empty. " +:+ reportIssue))).
Proof.
  split; [|reflexivity].
  unfold do. destruct (transportResult a) as [[resp|] [e|]].
  - right. destruct e; try (eexists; reflexivity).
    destruct (Contains Err "EOF"); eexists; reflexivity.
  - destruct (isTraceEnabled c
              && negb (traceErrorsOnly c && (StatusCode resp =? 200))).
    + destruct (dumpResult a); [right|left]; eexists; reflexivity.
    + left; eexists; reflexivity.
  - right. destruct e; try (eexists; reflexivity).
    destruct (Contains Err "EOF"); eexists; reflexivity.
  - right; eexists; reflexivity.
Qed.

(** ** [processBucketLocationResponse] *)

Lemma isRegionCode_true (code : string) :
  code = "AuthorizationHeaderMalformed" \/ code = "InvalidRegion"
  \/ code = "AccessDenied" ->
  isRegionCode code = true.
Proof.
  intros [-> | [-> | ->]]; reflexivity.
Qed.

(** C10.  For a response whose status is not 200 and whose decoded error
    code is [AuthorizationHeaderMalformed], [InvalidRegion] or
    [AccessDenied], [processBucketLocationResponse] returns the error's
    region hint, or "us-east-1" when the hint is empty, with a nil error.
    For a response with status 200 whose body decodes to a location
    constraint it returns "us-east-1" for the empty constraint,
    "eu-west-1" for "EU" and the constraint itself otherwise, with a nil
    error. *)
Theorem processBucketLocationResponse_spec (r : Response) (bucket : string) :
  (forall errResp,
      StatusCode r <> 200 ->
      errResp = ToErrorResponse (fst (httpRespToErrorResponse r bucket "")) ->
      Code errResp = "AuthorizationHeaderMalformed"
      \/ Code errResp = "InvalidRegion" \/ Code errResp = "AccessDenied" ->
      processBucketLocationResponse (Some r) bucket
      = Ok (if decide (Region errResp = "") then "us-east-1"
            else Region errResp, None))
  /\ (forall locationConstraint,
         StatusCode r = 200 ->
         xmlDecoder (RespBody r) = inr locationConstraint ->
         processBucketLocationResponse (Some r) bucket
         = Ok (if decide (locationConstraint = "") then "us-east-1"
               else if decide (locationConstraint = "EU") then "eu-west-1"
               else locationConstraint, None)).
Proof.
  split.
  - intros errResp Hst -> Hcode. unfold processBucketLocationResponse.
    apply Z.eqb_neq in Hst. rewrite Hst. simpl.
    rewrite (isRegionCode_true _ Hcode).
    destruct (String.eqb_spec
                (Region (ToErrorResponse
                           (fst (httpRespToErrorResponse r bucket "")))) "")
      as [He|Hne]; case_decide; congruence.
  - intros lc Hst Hdec. unfold processBucketLocationResponse.
    rewrite Hst, Hdec. simpl.
    destruct (String.eqb_spec lc "") as [->|Hne].
    + reflexivity.
    + case_decide; [congruence|].
      destruct (String.eqb_spec lc "EU") as [->|Hne'];
        case_decide; congruence.
Qed.

End ExecutorFacts.

Section LoopFacts.

Context {K : Collaborators}.

(** ** Counting attempts *)

Lemma attempts_logEv (e : Event) (s : State) :
  attempts (logEv e s) = ((if isAttempt e then 1 else 0) + attempts s)%nat.
Proof.
  unfold attempts, logEv; simpl. rewrite filter_app, length_app. simpl.
  destruct (isAttempt e) eqn:He.
  - rewrite filter_cons_True by done. simpl. lia.
  - rewrite filter_cons_False by (rewrite He; done). simpl. lia.
Qed.

Lemma genericDecision_state (e : ErrorResponse) (status : Z) (s : State) :
  controlState (genericDecision e status s) = s.
Proof.
  unfold genericDecision.
  destruct (isS3CodeRetryable (Code e)); [reflexivity|].
  destruct (isHTTPStatusRetryable status); reflexivity.
Qed.

Lemma regionCorrection_attempts (c : Client) (md : requestMetadata)
    (e : ErrorResponse) (s s' : State) :
  regionCorrection c md e s = RcRetry s' -> attempts s' = attempts s.
Proof.
  unfold regionCorrection.
  destruct (String.eqb (region c) ""); [|discriminate].
  destruct (isRegionCode (Code e)); [|discriminate].
  destruct (negb (String.eqb (bucketName md) "")
            && negb (String.eqb (Region e) "")).
  - destruct (cache s) as [bc|]; [|discriminate].
    destruct (snd (Cache.Get bc (bucketName md))); [|discriminate].
    intros [= <-]. rewrite attempts_logEv. reflexivity.
  - destruct (negb (String.eqb (Region e) (mdLocation s))); [|discriminate].
    intros [= <-]. reflexivity.
Qed.

Lemma attempts_setRes (r : option Response) (s : State) :
  attempts (setRes r s) = attempts s.
Proof. reflexivity. Qed.

Lemma attempts_setErr (e : option error) (s : State) :
  attempts (setErr e s) = attempts s.
Proof. reflexivity. Qed.

Lemma onFailureStatus_attempts (c : Client) (md : requestMetadata)
    (resp : Response) (s : State) :
  attempts (controlState (onFailureStatus c md resp s)) = attempts s.
Proof.
  unfold onFailureStatus.
  destruct (ReadAll (RespBody resp)) as [e|bytes]; cbn [controlState].
  - rewrite !attempts_logEv. reflexivity.
  - destruct (httpRespToErrorResponse _ _ _) as [e used].
    destruct (regionCorrection _ _ _ _) as [s'| |p] eqn:Hrc;
      cbn [controlState].
    + rewrite (regionCorrection_attempts _ _ _ _ _ Hrc).
      rewrite attempts_setRes, attempts_logEv, attempts_setRes,
        !attempts_logEv. reflexivity.
    + rewrite genericDecision_state.
      rewrite attempts_setRes, attempts_logEv, attempts_setRes,
        !attempts_logEv. reflexivity.
    + rewrite attempts_setRes, attempts_logEv, attempts_setRes,
        !attempts_logEv. reflexivity.
Qed.

Lemma sendAndDecide_attempts (c : Client) (md : requestMetadata)
    (req : Request) (a : AttemptEnv) (s : State) :
  attempts (controlState (sendAndDecide c md req a s)) = attempts s.
Proof.
  unfold sendAndDecide. destruct (do c req a) as [r e].
  assert (Hs : attempts (logEv (EvDo req) (setErr e (setRes r s)))
               = attempts s) by (rewrite attempts_logEv; reflexivity).
  destruct e as [e'|].
  - destruct (isHTTPReqErrorRetryable e'); exact Hs.
  - destruct r as [resp|]; [|exact Hs].
    destruct (isSuccessStatus (StatusCode resp)); [exact Hs|].
    rewrite onFailureStatus_attempts. exact Hs.
Qed.

Lemma enterAttempt_attempts (md : requestMetadata) (n : nat)
    (a : AttemptEnv) (s : State) :
  attempts (enterAttempt md n a s) = S (attempts s).
Proof.
  unfold enterAttempt. destruct (isRetryable md).
  - rewrite attempts_logEv. simpl.
    change (attempts (setErr (seekResult a) (logEv (EvAttempt n) s)))
      with (attempts (logEv (EvAttempt n) s)).
    rewrite attempts_logEv. reflexivity.
  - rewrite attempts_logEv. reflexivity.
Qed.

(** Every pass through the loop body consumes exactly one go signal. *)
Lemma loopBody_attempts (c : Client) (ctx : option Context)
    (req0 : option Request) (md : requestMetadata) (n : nat)
    (a : AttemptEnv) (s : State) :
  attempts (controlState (loopBody c ctx req0 md n a s)) = S (attempts s).
Proof.
  pose proof (enterAttempt_attempts md n a s) as He.
  unfold loopBody, enterAttempt in *.
  destruct (isRetryable md).
  - destruct (seekResult a) as [e|]; [exact He|].
    destruct (WithContext req0 ctx) as [req|p]; [|exact He].
    rewrite sendAndDecide_attempts. exact He.
  - destruct (WithContext req0 ctx) as [req|p]; [|exact He].
    rewrite sendAndDecide_attempts. exact He.
Qed.

Lemma continued_attempts (c : Client) (ctx : option Context)
    (req0 : option Request) (md : requestMetadata) (w : nat -> AttemptEnv)
    (pre : list nat) (s s' : State) :
  continued c ctx req0 md w pre s = Some s' ->
  attempts s' = (length pre + attempts s)%nat.
Proof.
  revert s. induction pre as [|n pre IH]; intros s; simpl.
  - intros [= <-]. reflexivity.
  - pose proof (loopBody_attempts c ctx req0 md n (w n) s) as Hb.
    destruct (loopBody c ctx req0 md n (w n) s) as [s1|s1|r e s1|p s1];
      try discriminate.
    intros H. rewrite (IH _ H). simpl in Hb. lia.
Qed.

Lemma retryLoop_attempts (c : Client) (ctx : option Context)
    (req0 : option Request) (md : requestMetadata) (w : nat -> AttemptEnv)
    (signals : list nat) (s : State) :
  (attempts (finalState (retryLoop c ctx req0 md w signals s))
   <= length signals + attempts s)%nat.
Proof.
  revert s. induction signals as [|n rest IH]; intros s; simpl.
  - lia.
  - pose proof (loopBody_attempts c ctx req0 md n (w n) s) as Hb.
    destruct (loopBody c ctx req0 md n (w n) s) as [s1|s1|r e s1|p s1];
      simpl in *; try lia.
    specialize (IH s1). lia.
Qed.

(** ** Unfolding the loop *)

Lemma retryLoop_continued (c : Client) (ctx : option Context)
    (req0 : option Request) (md : requestMetadata) (w : nat -> AttemptEnv)
    (pre rest : list nat) (s s' : State) :
  continued c ctx req0 md w pre s = Some s' ->
  retryLoop c ctx req0 md w (pre ++ rest) s
  = retryLoop c ctx req0 md w rest s'.
Proof.
  revert s. induction pre as [|n pre IH]; intros s; simpl.
  - intros [= <-]. reflexivity.
  - destruct (loopBody c ctx req0 md n (w n) s); try discriminate.
    apply IH.
Qed.

Lemma loopBody_enter (c : Client) (ctx : option Context)
    (req0 : option Request) (md : requestMetadata) (n : nat)
    (a : AttemptEnv) (s : State) :
  (isRetryable md = true -> seekResult a = None) ->
  loopBody c ctx req0 md n a s
  = match WithContext req0 ctx with
    | Fault p => Panic p (enterAttempt md n a s)
    | Ok req => sendAndDecide c md req a (enterAttempt md n a s)
    end.
Proof.
  intros Hseek. unfold loopBody, enterAttempt.
  destruct (isRetryable md); [|reflexivity].
  rewrite (Hseek eq_refl). reflexivity.
Qed.

Lemma deferred_attempts (md : requestMetadata) (o : Outcome) :
  attempts (finalState (deferred md o)) = attempts (finalState o).
Proof.
  unfold deferred. destruct (closesBody md); [|reflexivity].
  destruct o; simpl; rewrite attempts_logEv; reflexivity.
Qed.

End LoopFacts.

Section ExecutorClaims.

Context {K : Collaborators}.

Lemma newRetryTimer_positive (maxRetry : Z) :
  0 < maxRetry ->
  newRetryTimer maxRetry = 1%nat :: seq 2 (Z.to_nat maxRetry - 1).
Proof.
  intros Hpos. unfold newRetryTimer.
  destruct (Z.to_nat maxRetry) as [|k] eqn:Hk; [lia|].
  simpl. by rewrite Nat.sub_0_r.
Qed.

Lemma attempts_initialState (c : Client) (md : requestMetadata) :
  attempts (initialState c md) = 0%nat.
Proof. reflexivity. Qed.

(** ** The request is never instantiated *)

(** C1, which the code breaks.  The claim is that every attempt reaching
    the request-instantiation step completes without a nil-pointer fault
    and that failures come back as error values.  In the code, whenever the
    retry budget allows a first attempt and that attempt gets past the
    seek, line 608 calls [WithContext] on the nil [req]: the call ends in a
    panic during its first attempt, before anything is sent, whatever the
    transport would have answered. *)
Theorem executeMethod_faults_at_instantiation (c : Client)
    (ctx : option Context) (method : string) (md : requestMetadata)
    (w : nat -> AttemptEnv) :
  0 < reqRetry md ->
  (isRetryable md = true -> seekResult (w 1%nat) = None) ->
  executeMethod c ctx method md w
  = deferred md
      (Panicked
         match ctx with
         | None => NilContext
         | Some _ => NilPointerDereference
         end
         (enterAttempt md 1 (w 1%nat) (initialState c md))).
Proof.
  intros Hbudget Hseek. unfold executeMethod, executeMethodWith.
  rewrite (newRetryTimer_positive _ Hbudget).
  cbn [retryLoop]. rewrite (loopBody_enter _ _ _ _ _ _ _ Hseek).
  destruct ctx; reflexivity.
Qed.

(** ** What the nil request does to a call *)



(** ** Success statuses *)


(** ** The retry budget *)

Lemma isRetryable_false (md : requestMetadata) (b : Reader) :
  contentBody md = Some b ->
  isSeeker b = false \/ ident b = OsStdin \/ ident b = OsStdout
  \/ ident b = OsStderr ->
  isRetryable md = false.
Proof.
  intros Hb Hkind. unfold isRetryable, bodySeeker. rewrite Hb.
  destruct (isSeeker b) eqn:Hs.
  - destruct Hkind as [Hn | [-> | [-> | ->]]];
      [discriminate | reflexivity..].
  - reflexivity.
Qed.

(** C3.  When the metadata has a content body that does not implement
    [io.Seeker], or is [os.Stdin], [os.Stdout] or [os.Stderr], the retry
    budget is exactly 1 and the call makes at most one attempt. *)
Theorem nonseekable_body_one_attempt (req0 : option Request) (c : Client)
    (ctx : option Context) (method : string) (md : requestMetadata)
    (w : nat -> AttemptEnv) (b : Reader) :
  contentBody md = Some b ->
  isSeeker b = false \/ ident b = OsStdin \/ ident b = OsStdout
  \/ ident b = OsStderr ->
  reqRetry md = 1
  /\ (attempts (finalState (executeMethodWith req0 c ctx method md w)) <= 1)%nat.
Proof.
  intros Hb Hkind.
  assert (Hbudget : reqRetry md = 1).
  { unfold reqRetry. rewrite Hb, (isRetryable_false _ _ Hb Hkind).
    reflexivity. }
  split; [exact Hbudget|].
  unfold executeMethodWith. rewrite deferred_attempts, Hbudget.
  pose proof (retryLoop_attempts c ctx req0 md w (newRetryTimer 1)
                (initialState c md)) as Hle.
  rewrite attempts_initialState in Hle. exact Hle.
Qed.

(** ** Seek failures *)

(** C6.  With a retryable body, when seeking it back to offset zero fails
    with [e] on the attempt on go signal [n], the call returns a nil
    response and [e] from that pass: after the go signal and the seek
    nothing more happens, and the go signals [rest] are not consumed. *)
Theorem seek_failure_aborts (req0 : option Request) (c : Client)
    (ctx : option Context) (method : string) (md : requestMetadata)
    (w : nat -> AttemptEnv) (pre rest : list nat) (n : nat) (s : State)
    (e : error) :
  isRetryable md = true ->
  newRetryTimer (reqRetry md) = (pre ++ n :: rest)%list ->
  continued c ctx req0 md w pre (initialState c md) = Some s ->
  seekResult (w n) = Some e ->
  exists s' : State,
    executeMethodWith req0 c ctx method md w
    = deferred md (Returned None (Some e) s')
    /\ trace s' = (trace s ++ [EvAttempt n; EvSeek])%list
    /\ cache s' = cache s.
Proof.
  intros Hretry Htimer Hpre Hfail.
  exists (logEv EvSeek (setErr (Some e) (logEv (EvAttempt n) s))).
  split; [|split].
  - unfold executeMethodWith. rewrite Htimer.
    rewrite (retryLoop_continued _ _ _ _ _ _ _ _ _ Hpre).
    cbn [retryLoop]. unfold loopBody. rewrite Hretry, Hfail. reflexivity.
  - simpl. by rewrite <- app_assoc.
  - reflexivity.
Qed.

End ExecutorClaims.

Section RegionClaims.

Context {K : Collaborators}.

Lemma onFailureStatus_buffered (c : Client) (md : requestMetadata)
    (resp : Response) (s : State) (bytes : list byte) :
  ReadAll (RespBody resp) = inr bytes ->
  onFailureStatus c md resp s
  = match regionCorrection c md (decoded md resp bytes)
            (afterBuffering resp bytes s) with
    | RcFault p => Panic p (afterBuffering resp bytes s)
    | RcRetry s' => Continue s'
    | RcNone =>
        genericDecision (decoded md resp bytes) (StatusCode resp)
          (afterBuffering resp bytes s)
    end.
Proof.
  intros Hread. unfold onFailureStatus, decoded. rewrite Hread.
  destruct (httpRespToErrorResponse _ _ _) as [e used]. reflexivity.
Qed.

Lemma eqb_empty_false (x : string) : x <> "" -> String.eqb x "" = false.
Proof. intros Hne. by apply String.eqb_neq. Qed.

(** ** Region correction through the cache *)


(** ** Region correction without the cache *)


End RegionClaims.

Section BufferingClaims.

Context {K : Collaborators}.

Lemma regionCorrection_retry (c : Client) (md : requestMetadata)
    (e : ErrorResponse) (s s' : State) :
  regionCorrection c md e s = RcRetry s' ->
  res s' = res s /\ err s' = err s
  /\ (trace s' = trace s
      \/ trace s' = (trace s ++ [EvCacheSet (bucketName md) (Region e)])%list).
Proof.
  unfold regionCorrection.
  destruct (String.eqb (region c) ""); [|discriminate].
  destruct (isRegionCode (Code e)); [|discriminate].
  destruct (negb (String.eqb (bucketName md) "")
            && negb (String.eqb (Region e) "")).
  - destruct (cache s) as [bc|]; [|discriminate].
    destruct (snd (Cache.Get bc (bucketName md))); [|discriminate].
    intros [= <-]. repeat split. right. reflexivity.
  - destruct (negb (String.eqb (Region e) (mdLocation s))); [|discriminate].
    intros [= <-]. repeat split. left. reflexivity.
Qed.

(** ** Buffering the body of a failed response *)


End BufferingClaims.

(** * Closed instances *)

Lemma Set_idempotent_repeat :
  Cache.SetTimes 4 newBucketLocationCache "music" "eu-west-1"
  = Cache.Set_ newBucketLocationCache "music" "eu-west-1".
Proof. apply SetTimes_succ. Qed.

(** The call that would have been answered with a 200 ends in a nil-pointer
    fault during its first attempt, before anything is sent. *)
Lemma executeMethod_faults_witness :
  0 < reqRetry (K := gatewayBusy) (noBody "bucket01" "")
  /\ executeMethod (K := gatewayBusy) (clientWith ∅) background "GET"
       (noBody "bucket01" "") (always okResponse)
     = Panicked NilPointerDereference
         (mkState None None "" (Some (mkCache ∅)) [EvAttempt 1]).
Proof.
  split; [reflexivity|].
  apply (executeMethod_faults_at_instantiation (K := gatewayBusy)
           (clientWith ∅) background "GET" (noBody "bucket01" "")
           (always okResponse)).
  - reflexivity.
  - discriminate.
Defined.

Lemma nonseekable_body_witness :
  contentBody (withBody stdinBody) = Some stdinBody
  /\ ident stdinBody = OsStdin
  /\ reqRetry (K := gatewayBusy) (withBody stdinBody) = 1
  /\ (attempts
        (finalState
           (executeMethod (K := gatewayBusy) (clientWith ∅) background
              "PUT" (withBody stdinBody) (always unavailable)))
      <= 1)%nat.
Proof.
  split; [reflexivity|]. split; [reflexivity|].
  apply (nonseekable_body_one_attempt (K := gatewayBusy) None (clientWith ∅)
           background "PUT" (withBody stdinBody) (always unavailable)
           stdinBody).
  - reflexivity.
  - right; left; reflexivity.
Defined.

Lemma seek_failure_witness :
  isRetryable (withBody fileBody) = true
  /\ seekResult (seekFails 1) = Some (ErrorString "seek failed")
  /\ exists s' : State,
       executeMethod (K := gatewayBusy) (clientWith ∅) background "PUT"
         (withBody fileBody) seekFails
       = deferred (withBody fileBody)
           (Returned None (Some (ErrorString "seek failed")) s')
       /\ trace s'
          = (trace (initialState (clientWith ∅) (withBody fileBody))
             ++ [EvAttempt 1; EvSeek])%list
       /\ cache s' = cache (initialState (clientWith ∅) (withBody fileBody)).
Proof.
  split; [reflexivity|]. split; [reflexivity|].
  apply (seek_failure_aborts (K := gatewayBusy) None (clientWith ∅)
           background "PUT" (withBody fileBody) seekFails []
           [2%nat; 3%nat; 4%nat; 5%nat] 1
           (initialState (clientWith ∅) (withBody fileBody))
           (ErrorString "seek failed")); reflexivity.
Defined.





(** A 200 whose body is the constraint "EU", and a 403 decoded as
    [AccessDenied] without a region. *)
Lemma processBucketLocationResponse_witness :
  (StatusCode okResponse = 200
   /\ xmlDecoder (Collaborators := gatewayEU) (RespBody okResponse) = inr "EU"
   /\ processBucketLocationResponse (K := gatewayEU) (Some okResponse) "b"
      = Ok ("eu-west-1", None))
  /\ (StatusCode forbidden <> 200
      /\ Code (ToErrorResponse (Collaborators := gatewayNoHint)
                 (fst (httpRespToErrorResponse (Collaborators := gatewayNoHint)
                         forbidden "b" ""))) = "AccessDenied"
      /\ processBucketLocationResponse (K := gatewayNoHint) (Some forbidden)
           "b"
         = Ok ("us-east-1", None)).
Proof.
  split.
  - split; [reflexivity|]. split; [reflexivity|].
    exact (proj2 (processBucketLocationResponse_spec (K := gatewayEU)
                    okResponse "b") "EU" eq_refl eq_refl).
  - split; [discriminate|]. split; [reflexivity|].
    exact (proj1 (processBucketLocationResponse_spec (K := gatewayNoHint)
                    forbidden "b") _ ltac:(discriminate) eq_refl
             (or_intror (or_intror eq_refl))).
Defined.

(** A nil response makes [processBucketLocationResponse] dereference it. *)
Lemma processBucketLocationResponse_nil :
  processBucketLocationResponse (K := gatewayEU) None "b"
  = Fault NilPointerDereference.
Proof. reflexivity. Qed.

(** * Further properties of the executor *)

Section LoopInvariants.

Context {K : Collaborators}.

Lemma do_cases (c : Client) (req : Request) (a : AttemptEnv) :
  (exists resp, do c req a = (Some resp, None))
  \/ (exists e, do c req a = (None, Some e)).
Proof.
  unfold do. destruct (transportResult a) as [[resp|] [e|]].
  - right. destruct e; try (eexists; reflexivity).
    destruct (Contains Err "EOF"); eexists; reflexivity.
  - destruct (isTraceEnabled c
              && negb (traceErrorsOnly c && (StatusCode resp =? 200))).
    + destruct (dumpResult a); [right|left]; eexists; reflexivity.
    + left; eexists; reflexivity.
  - right. destruct e; try (eexists; reflexivity).
    destruct (Contains Err "EOF"); eexists; reflexivity.
  - right; eexists; reflexivity.
Qed.

Lemma regionCorrection_results (c : Client) (md : requestMetadata)
    (e : ErrorResponse) (s s' : State) :
  regionCorrection c md e s = RcRetry s' ->
  res s' = res s /\ err s' = err s.
Proof.
  unfold regionCorrection.
  destruct (String.eqb (region c) ""); [|discriminate].
  destruct (isRegionCode (Code e)); [|discriminate].
  destruct (negb (String.eqb (bucketName md) "")
            && negb (String.eqb (Region e) "")).
  - destruct (cache s) as [bc|]; [|discriminate].
    destruct (snd (Cache.Get bc (bucketName md))); [|discriminate].
    intros [= <-]. split; reflexivity.
  - destruct (negb (String.eqb (Region e) (mdLocation s))); [|discriminate].
    intros [= <-]. split; reflexivity.
Qed.

Lemma onFailureStatus_oneOf (c : Client) (md : requestMetadata)
    (resp : Response) (s : State) (r : option Response) (e : option error) :
  err s = None ->
  passResult (onFailureStatus c md resp s) = Some (r, e) -> oneOf r e.
Proof.
  intros Herr. unfold onFailureStatus.
  destruct (ReadAll (RespBody resp)) as [e0|bytes]; cbn [passResult].
  - intros [= <- <-]. left. split; [reflexivity | discriminate].
  - destruct (httpRespToErrorResponse _ _ _) as [e0 used].
    destruct (regionCorrection _ _ _ _) as [s'| |p] eqn:Hrc;
      cbn [passResult].
    + destruct (regionCorrection_results _ _ _ _ _ Hrc) as [Hr He].
      rewrite Hr, He. simpl. rewrite Herr.
      intros [= <- <-]. right. split; [discriminate | reflexivity].
    + unfold genericDecision.
      destruct (isS3CodeRetryable _); [|destruct (isHTTPStatusRetryable _)];
        simpl; rewrite Herr; intros [= <- <-]; right;
        (split; [discriminate | reflexivity]).
    + discriminate.
Qed.

(** Whatever a pass leaves or returns has exactly one nil component. *)
Lemma loopBody_oneOf (c : Client) (ctx : option Context)
    (req0 : option Request) (md : requestMetadata) (n : nat)
    (a : AttemptEnv) (s : State) (r : option Response) (e : option error) :
  passResult (loopBody c ctx req0 md n a s) = Some (r, e) -> oneOf r e.
Proof.
  unfold loopBody.
  set (s0 := logEv (EvAttempt n) s).
  assert (Hsend : forall req s1,
    passResult (sendAndDecide c md req a s1) = Some (r, e) -> oneOf r e).
  { intros req s1. unfold sendAndDecide.
    destruct (do_cases c req a) as [[resp Hdo]|[e0 Hdo]]; rewrite Hdo.
    - destruct (isSuccessStatus (StatusCode resp)).
      + intros [= <- <-]. right. split; [discriminate | reflexivity].
      + apply onFailureStatus_oneOf. reflexivity.
    - destruct (isHTTPReqErrorRetryable e0); intros [= <- <-]; left;
        (split; [reflexivity | discriminate]). }
  destruct (isRetryable md).
  - destruct (seekResult a) as [e0|].
    + intros [= <- <-]. left. split; [reflexivity | discriminate].
    + destruct (WithContext req0 ctx) as [req|p]; [apply Hsend|discriminate].
  - destruct (WithContext req0 ctx) as [req|p]; [apply Hsend|discriminate].
Qed.

Lemma retryLoop_oneOf (c : Client) (ctx : option Context)
    (req0 : option Request) (md : requestMetadata) (w : nat -> AttemptEnv)
    (signals : list nat) (s s' : State) (r : option Response)
    (e : option error) :
  signals <> [] \/ oneOf (res s) (err s) ->
  retryLoop c ctx req0 md w signals s = Returned r e s' ->
  oneOf r e.
Proof.
  revert s. induction signals as [|n rest IH]; intros s Hstart; simpl.
  - intros [= <- <- _]. destruct Hstart as [Hne|Hone]; [congruence|exact Hone].
  - pose proof (loopBody_oneOf c ctx req0 md n (w n) s) as Hpass.
    destruct (loopBody c ctx req0 md n (w n) s) as [s1|s1|r1 e1 s1|p s1];
      cbn [passResult] in Hpass.
    + apply IH. right. by apply Hpass.
    + intros [= <- <- _]. by apply Hpass.
    + intros [= <- <- _]. by apply Hpass.
    + discriminate.
Qed.

Lemma deferred_returned (md : requestMetadata) (o : Outcome)
    (r : option Response) (e : option error) (s : State) :
  deferred md o = Returned r e s ->
  exists s0, o = Returned r e s0.
Proof.
  unfold deferred. destruct (closesBody md); destruct o; try discriminate;
    intros [= <- <- _]; eexists; reflexivity.
Qed.

Lemma newRetryTimer_length (maxRetry : Z) :
  length (newRetryTimer maxRetry) = Z.to_nat maxRetry.
Proof. unfold newRetryTimer. apply length_seq. Qed.

Lemma newRetryTimer_empty (maxRetry : Z) :
  maxRetry <= 0 -> newRetryTimer maxRetry = [].
Proof.
  intros Hle. unfold newRetryTimer.
  replace (Z.to_nat maxRetry) with 0%nat by lia. reflexivity.
Qed.

(** X1.  A call never consumes more go signals than its retry budget. *)
Theorem attempts_within_budget (req0 : option Request) (c : Client)
    (ctx : option Context) (method : string) (md : requestMetadata)
    (w : nat -> AttemptEnv) :
  (attempts (finalState (executeMethodWith req0 c ctx method md w))
   <= Z.to_nat (reqRetry md))%nat.
Proof.
  unfold executeMethodWith. rewrite deferred_attempts.
  pose proof (retryLoop_attempts c ctx req0 md w (newRetryTimer (reqRetry md))
                (initialState c md)) as Hle.
  rewrite newRetryTimer_length in Hle.
  change (attempts (initialState c md)) with 0%nat in Hle. lia.
Qed.

(** X2.  When the retry budget allows at least one attempt, a call that
    returns hands back either a response with a nil error or a nil
    response with an error, never both and never neither. *)
Theorem returns_exactly_one (req0 : option Request) (c : Client)
    (ctx : option Context) (method : string) (md : requestMetadata)
    (w : nat -> AttemptEnv) (r : option Response) (e : option error)
    (s : State) :
  0 < reqRetry md ->
  executeMethodWith req0 c ctx method md w = Returned r e s ->
  oneOf r e.
Proof.
  intros Hbudget Hret. unfold executeMethodWith in Hret.
  destruct (deferred_returned _ _ _ _ _ Hret) as [s0 Hloop].
  assert (Hne : newRetryTimer (reqRetry md) <> []).
  { intros Hnil. pose proof (newRetryTimer_length (reqRetry md)) as Hlen.
    rewrite Hnil in Hlen. simpl in Hlen. lia. }
  exact (retryLoop_oneOf _ _ _ _ _ _ _ _ _ _ (or_introl Hne) Hloop).
Qed.

(** X3.  A call returns a nil response together with a nil error exactly
    when its retry budget is zero or negative, that is, when the loop
    body never runs. *)
Theorem nil_nil_iff_empty_budget (req0 : option Request) (c : Client)
    (ctx : option Context) (method : string) (md : requestMetadata)
    (w : nat -> AttemptEnv) :
  (exists s : State,
      executeMethodWith req0 c ctx method md w = Returned None None s)
  <-> reqRetry md <= 0.
Proof.
  split.
  - intros [s Hret]. destruct (Z.le_gt_cases (reqRetry md) 0) as [|Hpos];
      [assumption|].
    unfold executeMethodWith in Hret.
    destruct (deferred_returned _ _ _ _ _ Hret) as [s0 Hloop].
    assert (Hne : newRetryTimer (reqRetry md) <> []).
    { intros Hnil. pose proof (newRetryTimer_length (reqRetry md)) as Hlen.
      rewrite Hnil in Hlen. simpl in Hlen. lia. }
    destruct (retryLoop_oneOf _ _ _ _ _ _ _ _ _ _ (or_introl Hne) Hloop)
      as [[_ He]|[Hr _]]; congruence.
  - intros Hle. unfold executeMethodWith.
    rewrite (newRetryTimer_empty _ Hle). cbn [retryLoop].
    unfold deferred. destruct (closesBody md); eexists; reflexivity.
Qed.

End LoopInvariants.

Section FailedResponses.

Context {K : Collaborators}.

(** X4.  The block of lines 628-692, run on a failed response whose body
    was read, on a client without a fixed region, for a decoded error with
    one of the three region codes, a bucket name in the metadata and a
    cache entry for it: when the error carries a region, the block
    overwrites the entry with that region and ends in [continue]; when it
    carries none, the entry stays as it was. *)
Theorem failed_response_corrects_cache (c : Client) (md : requestMetadata)
    (resp : Response) (s : State) (bytes : list byte)
    (bc : bucketLocationCache) (old : string) :
  ReadAll (RespBody resp) = inr bytes ->
  region c = "" ->
  Code (decoded md resp bytes) = "AuthorizationHeaderMalformed"
  \/ Code (decoded md resp bytes) = "InvalidRegion"
  \/ Code (decoded md resp bytes) = "AccessDenied" ->
  bucketName md <> "" ->
  cache s = Some bc ->
  Cache.Get bc (bucketName md) = (old, true) ->
  (Region (decoded md resp bytes) <> "" ->
   onFailureStatus c md resp s
   = Continue
       (logEv (EvCacheSet (bucketName md) (Region (decoded md resp bytes)))
          (setCache
             (Some (Cache.Set_ bc (bucketName md)
                      (Region (decoded md resp bytes))))
             (afterBuffering resp bytes s))))
  /\ (Region (decoded md resp bytes) = "" ->
      cache (controlState (onFailureStatus c md resp s)) = Some bc).
Proof.
  intros Hread Hregion Hcode Hbucket Hcache Hget.
  rewrite (onFailureStatus_buffered _ _ _ _ _ Hread).
  unfold regionCorrection.
  rewrite Hregion, (isRegionCode_true _ Hcode).
  rewrite (eqb_empty_false _ Hbucket). cbn [String.eqb negb andb].
  change (cache (afterBuffering resp bytes s)) with (cache s).
  change (mdLocation (afterBuffering resp bytes s)) with (mdLocation s).
  split.
  - intros Hhint. rewrite (eqb_empty_false _ Hhint). cbn [negb].
    rewrite Hcache, Hget. reflexivity.
  - intros ->. cbn [String.eqb negb].
    destruct (mdLocation s); cbn [negb controlState].
    + rewrite genericDecision_state. exact Hcache.
    + exact Hcache.
Qed.

(** X5.  The same block, for a decoded error with one of the three region
    codes that carries a region, on a client without a fixed region.
    Without a bucket name in the metadata, the block compares the error's
    region with the metadata's: if they are equal the two classifiers
    decide, and otherwise the metadata's region becomes the error's and
    the block ends in [continue].  With a bucket name for which the cache
    holds no entry, the block changes neither and the two classifiers
    decide. *)
Theorem failed_response_without_entry (c : Client) (md : requestMetadata)
    (resp : Response) (s : State) (bytes : list byte) :
  ReadAll (RespBody resp) = inr bytes ->
  region c = "" ->
  Code (decoded md resp bytes) = "AuthorizationHeaderMalformed"
  \/ Code (decoded md resp bytes) = "InvalidRegion"
  \/ Code (decoded md resp bytes) = "AccessDenied" ->
  Region (decoded md resp bytes) <> "" ->
  (bucketName md = "" ->
   (Region (decoded md resp bytes) = mdLocation s ->
    onFailureStatus c md resp s
    = genericDecision (decoded md resp bytes) (StatusCode resp)
        (afterBuffering resp bytes s))
   /\ (Region (decoded md resp bytes) <> mdLocation s ->
       onFailureStatus c md resp s
       = Continue
           (setLocation (Region (decoded md resp bytes))
              (afterBuffering resp bytes s))))
  /\ (forall (bc : bucketLocationCache) (l : string),
         bucketName md <> "" ->
         cache s = Some bc ->
         Cache.Get bc (bucketName md) = (l, false) ->
         onFailureStatus c md resp s
         = genericDecision (decoded md resp bytes) (StatusCode resp)
             (afterBuffering resp bytes s)).
Proof.
  intros Hread Hregion Hcode Hhint.
  rewrite (onFailureStatus_buffered _ _ _ _ _ Hread).
  unfold regionCorrection.
  rewrite Hregion, (isRegionCode_true _ Hcode).
  rewrite (eqb_empty_false _ Hhint). cbn [String.eqb].
  change (cache (afterBuffering resp bytes s)) with (cache s).
  change (mdLocation (afterBuffering resp bytes s)) with (mdLocation s).
  split.
  - intros ->. cbn [String.eqb negb andb]. split.
    + intros ->. rewrite String.eqb_refl. reflexivity.
    + intros Hne. apply String.eqb_neq in Hne. rewrite Hne. reflexivity.
  - intros bc l Hbucket Hcache Hget.
    rewrite (eqb_empty_false _ Hbucket). cbn [negb andb].
    rewrite Hcache, Hget. reflexivity.
Qed.

(** X27.  The same block, for any failed response.  It first reads the
    original body to its end and closes it.  If the reading fails, it
    returns a nil response with the read error, and nothing is decoded.
    If the reading gives [bytes], the response handed to the decoder and
    the response the block leaves in [res] are the original one over an
    in-memory reader of [bytes] at offset zero, however far the decoder
    read, and the only event that may follow the decoding is the cache
    update of the region correction. *)
Theorem failed_response_buffered (c : Client) (md : requestMetadata)
    (resp : Response) (s : State) :
  (forall e : error,
      ReadAll (RespBody resp) = inl e ->
      onFailureStatus c md resp s
      = Return None (Some e)
          (logEv (EvCloseResponse (RespBody resp))
             (logEv (EvReadAll (RespBody resp)) s)))
  /\ (forall bytes : list byte,
         ReadAll (RespBody resp) = inr bytes ->
         let buffered := mkResponse (StatusCode resp) (Buffered bytes 0) in
         let k := onFailureStatus c md resp s in
         res (controlState k) = Some buffered
         /\ ReadAll (RespBody buffered) = inr bytes
         /\ (forall (r : option Response) (e : option error) (s' : State),
                k <> Return r e s')
         /\ exists tail : list Event,
              trace (controlState k)
              = (trace s
                 ++ [EvReadAll (RespBody resp);
                     EvCloseResponse (RespBody resp); EvDecode buffered]
                 ++ tail)%list
              /\ (tail = []
                  \/ tail = [EvCacheSet (bucketName md)
                               (Region (decoded md resp bytes))])).
Proof.
  split.
  - intros e Hread. unfold onFailureStatus. rewrite Hread. reflexivity.
  - intros bytes Hread buffered k. unfold k.
    rewrite (onFailureStatus_buffered _ _ _ _ _ Hread).
    assert (Htrace : trace (afterBuffering resp bytes s)
                     = (trace s
                        ++ [EvReadAll (RespBody resp);
                            EvCloseResponse (RespBody resp);
                            EvDecode buffered])%list).
    { unfold afterBuffering. simpl. by rewrite <- !app_assoc. }
    destruct (regionCorrection c md (decoded md resp bytes)
                (afterBuffering resp bytes s)) as [s'| |p] eqn:Hrc.
    + destruct (regionCorrection_retry _ _ _ _ _ Hrc) as (Hr & _ & Ht).
      cbn [controlState]. split; [by rewrite Hr|]. split; [reflexivity|].
      split; [discriminate|].
      destruct Ht as [Ht|Ht]; rewrite Ht, Htrace.
      * exists []. split; [by rewrite app_nil_r | by left].
      * eexists. split; [by rewrite <- app_assoc | by right].
    + rewrite genericDecision_state. split; [reflexivity|].
      split; [reflexivity|]. split.
      * intros r e s'. unfold genericDecision.
        destruct (isS3CodeRetryable _); [discriminate|].
        destruct (isHTTPStatusRetryable _); discriminate.
      * exists []. split; [by rewrite Htrace, app_nil_r | by left].
    + cbn [controlState]. split; [reflexivity|]. split; [reflexivity|].
      split; [discriminate|].
      exists []. split; [by rewrite Htrace, app_nil_r | by left].
Qed.

End FailedResponses.

Section CacheInvariants.

Context {K : Collaborators}.

Lemma sameNames_refl (bucket : string) (c0 : option bucketLocationCache) :
  sameNames bucket c0 c0.
Proof. destruct c0; simpl; auto. Qed.

Lemma sameNames_trans (bucket : string)
    (c0 c1 c2 : option bucketLocationCache) :
  sameNames bucket c0 c1 -> sameNames bucket c1 c2 -> sameNames bucket c0 c2.
Proof.
  destruct c0, c1, c2; simpl; try tauto.
  intros [Hd1 Hk1] [Hd2 Hk2]. split; [congruence|].
  intros k Hk. rewrite (Hk2 k Hk). by apply Hk1.
Qed.

Lemma sameNames_Set (bc : bucketLocationCache) (bucket location : string) :
  snd (Cache.Get bc bucket) = true ->
  sameNames bucket (Some bc) (Some (Cache.Set_ bc bucket location)).
Proof.
  unfold Cache.Get. destruct (items bc !! bucket) as [old|] eqn:Hold;
    [|discriminate].
  intros _. simpl. split.
  - rewrite dom_insert_L. apply elem_of_dom_2 in Hold.
    apply subseteq_union_1_L. by apply singleton_subseteq_l.
  - intros k Hk. by rewrite lookup_insert_ne.
Qed.

(** What one region correction may do to the cache and to the metadata's
    region. *)
Lemma regionCorrection_step (c : Client) (md : requestMetadata)
    (e : ErrorResponse) (s s' : State) :
  regionCorrection c md e s = RcRetry s' ->
  region c = ""
  /\ sameNames (bucketName md) (cache s) (cache s')
  /\ bodyCloses s' = bodyCloses s.
Proof.
  unfold regionCorrection.
  destruct (String.eqb_spec (region c) "") as [Hreg|]; [|discriminate].
  destruct (isRegionCode (Code e)); [|discriminate].
  destruct (negb (String.eqb (bucketName md) "")
            && negb (String.eqb (Region e) "")).
  - destruct (cache s) as [bc|] eqn:Hc; [|discriminate].
    destruct (snd (Cache.Get bc (bucketName md))) eqn:Hget; [|discriminate].
    intros [= <-]. split; [exact Hreg|]. split.
    + cbn [cache logEv setCache]. by apply sameNames_Set.
    + unfold bodyCloses. cbn [trace logEv setCache].
      rewrite filter_app, length_app. simpl. lia.
  - destruct (negb (String.eqb (Region e) (mdLocation s))); [|discriminate].
    intros [= <-]. split; [exact Hreg|]. split;
      [apply sameNames_refl | reflexivity].
Qed.

Lemma bodyCloses_logEv (e : Event) (s : State) :
  bodyCloses (logEv e s)
  = ((if isCloseBody e then 1 else 0) + bodyCloses s)%nat.
Proof.
  unfold bodyCloses, logEv; simpl. rewrite filter_app, length_app. simpl.
  destruct (isCloseBody e) eqn:He.
  - rewrite filter_cons_True by done. simpl. lia.
  - rewrite filter_cons_False by (rewrite He; done). simpl. lia.
Qed.

Lemma bodyCloses_setErr (e : option error) (s : State) :
  bodyCloses (setErr e s) = bodyCloses s.
Proof. reflexivity. Qed.

Lemma keeps_refl (c : Client) (md : requestMetadata) (s : State) :
  keeps c md s s.
Proof. split; [apply sameNames_refl|]. split; [reflexivity|]. by split. Qed.

Lemma keeps_trans (c : Client) (md : requestMetadata) (s0 s1 s2 : State) :
  keeps c md s0 s1 -> keeps c md s1 s2 -> keeps c md s0 s2.
Proof.
  intros (Hn1 & Hb1 & Hf1) (Hn2 & Hb2 & Hf2). split; [|split].
  - eapply sameNames_trans; eassumption.
  - congruence.
  - intros Hfix. destruct (Hf1 Hfix), (Hf2 Hfix). split; congruence.
Qed.

Lemma keeps_quiet (c : Client) (md : requestMetadata) (s s' : State) :
  cache s' = cache s -> mdLocation s' = mdLocation s ->
  bodyCloses s' = bodyCloses s -> keeps c md s s'.
Proof.
  intros Hc Hl Hb. split; [rewrite Hc; apply sameNames_refl|].
  split; [exact Hb|]. by split.
Qed.

Lemma onFailureStatus_keeps (c : Client) (md : requestMetadata)
    (resp : Response) (s : State) :
  keeps c md s (controlState (onFailureStatus c md resp s)).
Proof.
  unfold onFailureStatus.
  destruct (ReadAll (RespBody resp)) as [e|bytes]; cbn [controlState].
  - apply keeps_quiet; [reflexivity..|].
    rewrite !bodyCloses_logEv. reflexivity.
  - destruct (httpRespToErrorResponse _ _ _) as [e used].
    match goal with
    | |- context [regionCorrection c md ?er ?st] =>
        assert (Hmid : keeps c md s st)
    end.
    { apply keeps_quiet; [reflexivity..|].
      unfold bodyCloses. cbn [trace setRes logEv].
      rewrite !filter_app, !length_app. simpl. lia. }
    destruct (regionCorrection _ _ _ _) as [s'| |p] eqn:Hrc;
      cbn [controlState].
    + destruct (regionCorrection_step _ _ _ _ _ Hrc) as (Hreg & Hn & Hb).
      eapply keeps_trans; [exact Hmid|].
      split; [exact Hn|]. split; [exact Hb|]. intros Hfix. congruence.
    + rewrite genericDecision_state. exact Hmid.
    + exact Hmid.
Qed.

Lemma loopBody_keeps (c : Client) (ctx : option Context)
    (req0 : option Request) (md : requestMetadata) (n : nat)
    (a : AttemptEnv) (s : State) :
  keeps c md s (controlState (loopBody c ctx req0 md n a s)).
Proof.
  assert (Hquiet : forall s1,
    cache s1 = cache s -> mdLocation s1 = mdLocation s ->
    bodyCloses s1 = bodyCloses s ->
    forall req, keeps c md s (controlState (sendAndDecide c md req a s1))).
  { intros s1 Hc Hl Hb req. unfold sendAndDecide.
    destruct (do c req a) as [r e].
    set (s2 := logEv (EvDo req) (setErr e (setRes r s1))).
    assert (H2 : keeps c md s s2).
    { apply keeps_quiet; [exact Hc | exact Hl |].
      unfold s2. rewrite bodyCloses_logEv. exact Hb. }
    destruct e as [e'|].
    - destruct (isHTTPReqErrorRetryable e'); exact H2.
    - destruct r as [resp|]; [|exact H2].
      destruct (isSuccessStatus (StatusCode resp)); [exact H2|].
      eapply keeps_trans; [exact H2|]. apply onFailureStatus_keeps. }
  unfold loopBody.
  destruct (isRetryable md).
  - destruct (seekResult a) as [e|]; cbn [controlState].
    + apply keeps_quiet; [reflexivity..|].
      rewrite bodyCloses_logEv, bodyCloses_setErr, bodyCloses_logEv.
      reflexivity.
    + destruct (WithContext req0 ctx) as [req|p]; cbn [controlState].
      * apply Hquiet; [reflexivity..|].
        rewrite bodyCloses_logEv, bodyCloses_setErr, bodyCloses_logEv.
        reflexivity.
      * apply keeps_quiet; [reflexivity..|].
        rewrite bodyCloses_logEv, bodyCloses_setErr, bodyCloses_logEv.
        reflexivity.
  - destruct (WithContext req0 ctx) as [req|p]; cbn [controlState].
    + apply Hquiet; [reflexivity..|]. rewrite bodyCloses_logEv. reflexivity.
    + apply keeps_quiet; [reflexivity..|].
      rewrite bodyCloses_logEv. reflexivity.
Qed.

Lemma retryLoop_keeps (c : Client) (ctx : option Context)
    (req0 : option Request) (md : requestMetadata) (w : nat -> AttemptEnv)
    (signals : list nat) (s : State) :
  keeps c md s (finalState (retryLoop c ctx req0 md w signals s)).
Proof.
  revert s. induction signals as [|n rest IH]; intros s; simpl.
  - apply keeps_refl.
  - pose proof (loopBody_keeps c ctx req0 md n (w n) s) as Hpass.
    destruct (loopBody c ctx req0 md n (w n) s) as [s1|s1|r e s1|p s1];
      cbn [controlState finalState] in *; try exact Hpass.
    eapply keeps_trans; [exact Hpass | apply IH].
Qed.

Lemma deferred_state (md : requestMetadata) (o : Outcome) :
  finalState (deferred md o)
  = if closesBody md then logEv EvCloseBody (finalState o) else finalState o.
Proof.
  unfold deferred. destruct (closesBody md); destruct o; reflexivity.
Qed.

(** X6.  A call never adds a bucket to the location cache and never
    removes one: whatever it ends in, the cache holds the names it held on
    entry, and the entry of every bucket other than the metadata's is the
    one it was; a nil cache pointer stays nil. *)
Theorem cache_names_preserved (req0 : option Request) (c : Client)
    (ctx : option Context) (method : string) (md : requestMetadata)
    (w : nat -> AttemptEnv) :
  sameNames (bucketName md) (bucketLocCache c)
    (cache (finalState (executeMethodWith req0 c ctx method md w))).
Proof.
  unfold executeMethodWith. rewrite deferred_state.
  destruct (retryLoop_keeps c ctx req0 md w (newRetryTimer (reqRetry md))
              (initialState c md)) as (Hn & _).
  destruct (closesBody md); exact Hn.
Qed.

(** X7.  On a client with a fixed region a call changes neither the
    location cache nor the metadata's region, whatever the gateway
    answers. *)
Theorem fixed_region_no_correction (req0 : option Request) (c : Client)
    (ctx : option Context) (method : string) (md : requestMetadata)
    (w : nat -> AttemptEnv) :
  region c <> "" ->
  cache (finalState (executeMethodWith req0 c ctx method md w))
  = bucketLocCache c
  /\ mdLocation (finalState (executeMethodWith req0 c ctx method md w))
     = bucketLocation md.
Proof.
  intros Hfix. unfold executeMethodWith. rewrite deferred_state.
  destruct (retryLoop_keeps c ctx req0 md w (newRetryTimer (reqRetry md))
              (initialState c md)) as (_ & _ & Hkeep).
  destruct (Hkeep Hfix) as [Hc Hl].
  destruct (closesBody md); split; assumption.
Qed.

(** X8.  A request body that implements [io.Closer] is closed exactly once
    by a call, as its last action, whether the call returns or panics; a
    body that does not, or no body, is never closed. *)
Theorem body_closed_exactly_once (req0 : option Request) (c : Client)
    (ctx : option Context) (method : string) (md : requestMetadata)
    (w : nat -> AttemptEnv) :
  bodyCloses (finalState (executeMethodWith req0 c ctx method md w))
  = (if closesBody md then 1 else 0)%nat
  /\ (closesBody md = true ->
      exists evs : list Event,
        trace (finalState (executeMethodWith req0 c ctx method md w))
        = (evs ++ [EvCloseBody])%list).
Proof.
  unfold executeMethodWith. rewrite deferred_state.
  destruct (retryLoop_keeps c ctx req0 md w (newRetryTimer (reqRetry md))
              (initialState c md)) as (_ & Hb & _).
  change (bodyCloses (initialState c md)) with 0%nat in Hb.
  destruct (closesBody md).
  - split.
    + rewrite bodyCloses_logEv, Hb. reflexivity.
    + intros _. eexists. reflexivity.
  - split; [exact Hb | discriminate].
Qed.

End CacheInvariants.

(** * Further properties of the bucket location cache *)

Lemma Get_missing (r : bucketLocationCache) (b : string) :
  snd (Cache.Get r b) = false <-> items r !! b = None.
Proof.
  unfold Cache.Get. destruct (items r !! b); simpl; split; congruence.
Qed.

(** X9.  After [Delete(b)] the cache answers [Get(b)] with the empty
    string and [false], answers for every other name as before, and a
    [Delete] of a name the cache does not hold changes nothing. *)
Theorem Delete_removes (r : bucketLocationCache) (b : string) :
  Cache.Get (Cache.Delete r b) b = ("", false)
  /\ (forall b' : string,
         b' <> b -> Cache.Get (Cache.Delete r b) b' = Cache.Get r b')
  /\ (snd (Cache.Get r b) = false -> Cache.Delete r b = r).
Proof.
  split; [|split].
  - unfold Cache.Get, Cache.Delete; simpl. by rewrite lookup_delete_eq.
  - intros b' Hne. unfold Cache.Get, Cache.Delete; simpl.
    rewrite lookup_delete_ne; [reflexivity | congruence].
  - intros Hmiss. apply Get_missing in Hmiss. destruct r as [m].
    unfold Cache.Delete; simpl in *. f_equal. by apply delete_id.
Qed.

(** X10.  Inserting a bucket the cache does not hold and deleting it again
    gives back the cache as it was. *)
Theorem Set_then_Delete (r : bucketLocationCache) (b location : string) :
  snd (Cache.Get r b) = false ->
  Cache.Delete (Cache.Set_ r b location) b = r.
Proof.
  intros Hmiss. apply Get_missing in Hmiss. destruct r as [m].
  unfold Cache.Delete, Cache.Set_; simpl in *. f_equal.
  rewrite delete_insert_eq. by apply delete_id.
Qed.

(** X11.  The last [Set] of a bucket wins, and [Set]s of different buckets
    can be made in either order. *)
Theorem Set_overwrites_and_commutes (r : bucketLocationCache)
    (b1 b2 l1 l2 : string) :
  Cache.Set_ (Cache.Set_ r b1 l1) b1 l2 = Cache.Set_ r b1 l2
  /\ (b1 <> b2 ->
      Cache.Set_ (Cache.Set_ r b1 l1) b2 l2
      = Cache.Set_ (Cache.Set_ r b2 l2) b1 l1).
Proof.
  unfold Cache.Set_; simpl. split.
  - f_equal. apply insert_insert_eq.
  - intros Hne. f_equal. by apply insert_insert_ne.
Qed.

(** * Further properties of [Client.do] and of the location response *)

Lemma prefix_occurs (sub s : string) :
  String.prefix sub s = true <-> exists post : string, s = sub +:+ post.
Proof.
  revert s. induction sub as [|a sub IH]; intros s.
  - split; [intros _; by exists s | intros _; by destruct s].
  - destruct s as [|b s]; simpl;
      [split; [discriminate | intros [post [=]]]|].
    destruct (Ascii.ascii_dec a b) as [->|Hne].
    + rewrite IH. split; intros [post Hpost]; exists post.
      * simpl. by rewrite Hpost.
      * simpl in Hpost. by injection Hpost.
    + split; [discriminate | intros [post Hpost]].
      simpl in Hpost. injection Hpost as Hab _. congruence.
Qed.

(** The model of [strings.Contains] decides occurrence. *)
Lemma Contains_occurs (s sub : string) :
  Contains s sub = true <-> occursIn sub s.
Proof.
  unfold occursIn. induction s as [|a s IH].
  - cbn [Contains]. rewrite orb_false_r, prefix_occurs. split.
    + intros [post Hpost]. by exists "", post.
    + intros (pre & post & Heq). destruct pre; simpl in Heq; [|discriminate].
      by exists post.
  - cbn [Contains]. rewrite orb_true_iff, prefix_occurs, IH. split.
    + intros [[post Hpost] | (pre & post & Heq)].
      * by exists "", post.
      * exists (String a pre), post. simpl. by rewrite Heq.
    + intros (pre & post & Heq). destruct pre as [|a' pre]; simpl in Heq.
      * left. by exists post.
      * right. injection Heq as _ Heq. by exists pre, post.
Qed.

Section DoFacts.

Context {K : Collaborators}.

(** X12.  [do] hands back a response only when the transport produced
    exactly that response and no error, and, where the trace flags ask for
    a dump of it, the dump succeeded: it never alters or invents a
    response. *)
Theorem do_response_from_transport (c : Client) (req : Request)
    (a : AttemptEnv) (r : Response) (e : option error) :
  do c req a = (Some r, e) ->
  e = None
  /\ transportResult a = (Some r, None)
  /\ (isTraceEnabled c = true ->
      (traceErrorsOnly c = true /\ StatusCode r = 200)
      \/ dumpResult a = None).
Proof.
  unfold do. destruct (transportResult a) as [[resp|] [e0|]].
  - destruct e0; [destruct (Contains Err "EOF")| |]; discriminate.
  - destruct (isTraceEnabled c) eqn:Hen; simpl.
    + destruct (traceErrorsOnly c) eqn:Heo; simpl.
      * destruct (Z.eqb_spec (StatusCode resp) 200) as [H200|]; simpl.
        -- intros [= <- <-]. repeat split. intros _. left. by split.
        -- destruct (dumpResult a); [discriminate|].
           intros [= <- <-]. repeat split. intros _. by right.
      * destruct (dumpResult a); [discriminate|].
        intros [= <- <-]. repeat split. intros _. by right.
    + intros [= <- <-]. repeat split. discriminate.
  - destruct e0; [destruct (Contains Err "EOF")| |]; discriminate.
  - discriminate.
Qed.

(** X13.  When the transport reports an error, [do] drops whatever response
    came with it.  A [url.Error] whose wrapped error text contains "EOF"
    is replaced by a [url.Error] with the same operation and URL that says
    the connection was closed by the foreign host; every other error is
    returned as it is. *)
Theorem do_transport_error (c : Client) (req : Request) (a : AttemptEnv)
    (r0 : option Response) (e : error) :
  transportResult a = (r0, Some e) ->
  (forall op url inner : string,
      e = UrlError op url inner ->
      occursIn "EOF" inner ->
      do c req a
      = (None,
         Some (UrlError op url
                 ("Connection closed by foreign host " +:+ url
                  +:+ ". Retry again."))))
  /\ ((forall op url inner : string,
          e = UrlError op url inner -> ~ occursIn "EOF" inner) ->
      do c req a = (None, Some e)).
Proof.
  intros Ht. unfold do. rewrite Ht. split.
  - intros op url inner -> Hocc. apply Contains_occurs in Hocc.
    rewrite Hocc. by destruct r0.
  - intros Hno. destruct e as [op url inner| |]; try by destruct r0.
    destruct (Contains inner "EOF") eqn:Hc; [|by destruct r0].
    apply Contains_occurs in Hc. by destruct (Hno op url inner eq_refl).
Qed.

(** X14.  For a non-nil response [processBucketLocationResponse] returns
    either a non-empty location with a nil error or the empty location
    with an error. *)
Theorem processBucketLocationResponse_either (r : Response) (bucket : string) :
  exists (location : string) (e : option error),
    processBucketLocationResponse (Some r) bucket = Ok (location, e)
    /\ (e = None <-> location <> "").
Proof.
  unfold processBucketLocationResponse.
  destruct (negb (StatusCode r =? 200)).
  - destruct (isRegionCode _).
    + destruct (String.eqb_spec
                  (Region (ToErrorResponse
                             (fst (httpRespToErrorResponse r bucket "")))) "")
        as [Hempty|Hhint].
      * eexists _, _. split; [reflexivity|]. split; [discriminate|reflexivity].
      * eexists _, _. split; [reflexivity|]. by split.
    + eexists _, _. split; [reflexivity|]. split; [discriminate | congruence].
  - destruct (xmlDecoder (RespBody r)) as [e|lc].
    + eexists _, _. split; [reflexivity|]. split; [discriminate | congruence].
    + eexists _, _. split; [reflexivity|]. split; [|reflexivity].
      intros _. destruct (String.eqb_spec lc "") as [->|Hne].
      * discriminate.
      * destruct (String.eqb lc "EU"); [discriminate | exact Hne].
Qed.

End DoFacts.

(** * Tracing switches and the user agent *)

Lemma traceCalls_snoc (calls : list TraceCall) (t : TraceCall)
    (c : ClientSettings) :
  traceCalls (calls ++ [t]) c = traceCall (traceCalls calls c) t.
Proof. unfold traceCalls. apply foldl_snoc. Qed.

(** X15.  Starting from a client with tracing off, after any run of calls
    of [TraceOn], [TraceErrorsOnlyOn], [TraceErrorsOnlyOff] and [TraceOff]:
    whenever tracing is enabled a trace output is set, errors-only tracing
    is never on while tracing is off, and the region, the cache pointer
    and the application info are those of the start. *)
Theorem trace_switches_invariant (calls : list TraceCall)
    (c : ClientSettings) :
  isTraceEnabled (client c) = false ->
  traceErrorsOnly (client c) = false ->
  let c' := traceCalls calls c in
  (isTraceEnabled (client c') = true -> traceOutput c' <> None)
  /\ (traceErrorsOnly (client c') = true -> isTraceEnabled (client c') = true)
  /\ region (client c') = region (client c)
  /\ bucketLocCache (client c') = bucketLocCache (client c)
  /\ appInfo c' = appInfo c.
Proof.
  intros Hoff Heo. induction calls as [|t calls IH] using rev_ind.
  - simpl. rewrite Hoff, Heo. repeat split; discriminate.
  - cbv zeta in *. rewrite traceCalls_snoc.
    destruct IH as (Hout & Honly & Hreg & Hcache & Happ).
    destruct t as [o|o| |]; simpl.
    + repeat split; try assumption. destruct o; discriminate.
    + repeat split; try assumption. destruct o; discriminate.
    + repeat split; try assumption. discriminate.
    + repeat split; try assumption; discriminate.
Qed.

Section SwitchesAndDo.

Context {K : Collaborators}.

(** X16.  After [TraceOff] the answer of [do] does not depend on what
    [dumpHTTP] would do.  After [TraceErrorsOnlyOn] followed by [TraceOn],
    errors-only tracing is still on: a response with status 200 comes back
    without a dump, and for any other status a failing dump replaces the
    response by the dump's error. *)
Theorem trace_switches_and_do (c : ClientSettings) (req : Request)
    (o1 o2 : option Writer) (sk dump : option error)
    (t : option Response * option error) (r : Response) (e : error) :
  do (client (TraceOff c)) req (mkAttemptEnv sk t dump)
  = do (client (TraceOff c)) req (mkAttemptEnv sk t None)
  /\ (StatusCode r = 200 ->
      do (client (TraceOn o2 (TraceErrorsOnlyOn o1 c))) req
        (mkAttemptEnv sk (Some r, None) dump)
      = (Some r, None))
  /\ (StatusCode r <> 200 ->
      do (client (TraceOn o2 (TraceErrorsOnlyOn o1 c))) req
        (mkAttemptEnv sk (Some r, None) (Some e))
      = (None, Some e)).
Proof.
  split; [|split].
  - unfold do; simpl. destruct t as [[resp|] [e0|]]; reflexivity.
  - intros H200. unfold do; simpl. rewrite H200. reflexivity.
  - intros Hne. unfold do; simpl. apply Z.eqb_neq in Hne. rewrite Hne.
    reflexivity.
Qed.

End SwitchesAndDo.

Lemma setAppInfos_snoc (calls : list (string * string)) (nv : string * string)
    (c : ClientSettings) :
  setAppInfos (calls ++ [nv]) c
  = SetAppInfo (fst nv) (snd nv) (setAppInfos calls c).
Proof. unfold setAppInfos. by rewrite foldl_snoc. Qed.

Lemma setAppInfos_appInfo (calls : list (string * string))
    (c : ClientSettings) :
  appInfo (setAppInfos calls c)
  = match lastComplete calls with
    | Some (name, version) => mkAppInfo name version
    | None => appInfo c
    end.
Proof.
  induction calls as [|[name version] calls IH] using rev_ind.
  - reflexivity.
  - rewrite setAppInfos_snoc. unfold lastComplete, SetAppInfo.
    rewrite filter_app. cbn [fst snd].
    destruct (String.eqb_spec name "") as [->|Hn]; cbn [negb andb].
    + rewrite filter_cons_False by (simpl; tauto).
      rewrite filter_nil, app_nil_r. exact IH.
    + destruct (String.eqb_spec version "") as [->|Hv]; cbn [negb].
      * rewrite filter_cons_False by (simpl; tauto).
        rewrite filter_nil, app_nil_r. exact IH.
      * rewrite filter_cons_True by (simpl; tauto).
        rewrite filter_nil, last_snoc. reflexivity.
Qed.

Lemma lastComplete_complete (calls : list (string * string))
    (name version : string) :
  lastComplete calls = Some (name, version) -> name <> "" /\ version <> "".
Proof.
  unfold lastComplete. intros Hlast. apply last_Some_elem_of in Hlast.
  apply list_elem_of_filter in Hlast as [Hok _]. exact Hok.
Qed.

(** X17.  On a client whose application info starts empty, after any run
    of [SetAppInfo] calls [setUserAgent] sets the single User-Agent value
    to the library's user agent, followed by the name and version of the
    last call that gave two non-empty texts if there was one; calls with
    an empty name or version leave no trace, and no other header is
    touched. *)
Theorem user_agent_after_SetAppInfo (goos goarch : string)
    (calls : list (string * string)) (c : Client) (h : Header) :
  setUserAgent goos goarch (setAppInfos calls (freshSettings c)) h
  = <["User-Agent" :=
        [match lastComplete calls with
         | Some (name, version) =>
             libraryUserAgent goos goarch +:+ " " +:+ name +:+ "/"
             +:+ version
         | None => libraryUserAgent goos goarch
         end]]> h.
Proof.
  unfold setUserAgent. rewrite setAppInfos_appInfo.
  destruct (lastComplete calls) as [[name version]|] eqn:Hlast.
  - destruct (lastComplete_complete _ _ _ Hlast) as [Hn Hv].
    cbn [appName appVersion].
    apply String.eqb_neq in Hn, Hv. rewrite Hn, Hv. cbn [negb andb].
    unfold HeaderSet. apply insert_insert_eq.
  - reflexivity.
Qed.

(** * [redirectHeaders] *)

Lemma copyHeader_fold (reqHost lastHost : string)
    (order : list (string * list string)) (h : Header) (reAuth : bool) :
  let result := foldl (copyHeader reqHost lastHost) (h, reAuth) order in
  (forall k : string,
      result.1 !! k
      = match h !! k with
        | Some v => Some v
        | None =>
            if crossHostAuth reqHost lastHost k then None
            else (list_to_map order : Header) !! k
        end)
  /\ result.2
     = reAuth
       || (negb (String.eqb reqHost lastHost)
           && bool_decide ("Authorization" ∈ order.*1)).
Proof.
  revert h reAuth. induction order as [|[attr val] rest IH]; intros h reAuth.
  - cbn [foldl fst snd]. split.
    + intros k. destruct (h !! k); [reflexivity|].
      rewrite list_to_map_nil, lookup_empty.
      by destruct (crossHostAuth _ _ _).
    + rewrite bool_decide_eq_false_2 by apply not_elem_of_nil.
      by rewrite andb_false_r, orb_false_r.
  - cbn [foldl]. unfold copyHeader at 2 4. fold (crossHostAuth reqHost lastHost attr).
    rewrite list_to_map_cons. rewrite fmap_cons. cbn [fst].
    assert (Hflag : crossHostAuth reqHost lastHost attr = false ->
        negb (String.eqb reqHost lastHost)
        && bool_decide ("Authorization" ∈ attr :: rest.*1)
        = negb (String.eqb reqHost lastHost)
          && bool_decide ("Authorization" ∈ rest.*1)).
    { intros Hcross. destruct (String.eqb reqHost lastHost) eqn:Hhost;
        [reflexivity|]. cbn [negb andb].
      unfold crossHostAuth in Hcross. rewrite Hhost, andb_true_r in Hcross.
      apply String.eqb_neq in Hcross. apply bool_decide_ext.
      rewrite elem_of_cons.
      split; [intros [Heq|Hin]; [congruence | exact Hin] | by right]. }
    destruct (crossHostAuth reqHost lastHost attr) eqn:Hcross.
    + destruct (IH h true) as [Hh Hr]. cbv zeta in *. split.
      * intros k. rewrite Hh. destruct (h !! k); [reflexivity|].
        destruct (crossHostAuth reqHost lastHost k) eqn:Hk; [reflexivity|].
        rewrite lookup_insert_ne; [reflexivity|].
        intros ->. congruence.
      * rewrite Hr. unfold crossHostAuth in Hcross.
        apply andb_true_iff in Hcross as [Hattr Hhost].
        apply String.eqb_eq in Hattr as ->. rewrite Hhost.
        rewrite (bool_decide_eq_true_2 (_ ∈ _ :: _)) by (by left).
        by rewrite orb_true_r.
    + specialize (Hflag eq_refl).
      destruct (h !! attr) as [old|] eqn:Hold.
      * destruct (IH h reAuth) as [Hh Hr]. cbv zeta in *. split.
        -- intros k. rewrite Hh. destruct (h !! k) eqn:Hk; [reflexivity|].
           destruct (crossHostAuth reqHost lastHost k); [reflexivity|].
           rewrite lookup_insert_ne; [reflexivity|].
           intros ->. congruence.
        -- rewrite Hr, Hflag. reflexivity.
      * destruct (IH (<[attr := val]> h) reAuth) as [Hh Hr]. cbv zeta in *.
        split.
        -- intros k. rewrite Hh. destruct (decide (k = attr)) as [->|Hne].
           ++ rewrite lookup_insert_eq, Hold, Hcross.
              by rewrite lookup_insert_eq.
           ++ rewrite lookup_insert_ne by congruence.
              destruct (h !! k); [reflexivity|].
              destruct (crossHostAuth reqHost lastHost k); [reflexivity|].
              by rewrite lookup_insert_ne by congruence.
        -- rewrite Hr, Hflag. reflexivity.
Qed.

Lemma order_of_header (lastHeader : Header)
    (order : list (string * list string)) :
  order ≡ₚ map_to_list lastHeader ->
  (list_to_map order : Header) = lastHeader
  /\ ("Authorization" ∈ order.*1 <-> is_Some (lastHeader !! "Authorization")).
Proof.
  intros Hperm. split.
  - transitivity (list_to_map (map_to_list lastHeader) : Header);
      [|apply list_to_map_to_list].
    apply list_to_map_proper; [|exact Hperm].
    rewrite Hperm. apply NoDup_fst_map_to_list.
  - rewrite Hperm. rewrite list_elem_of_fmap. split.
    + intros ([k v] & Hk & Hin). simpl in Hk. subst k.
      apply elem_of_map_to_list in Hin. eauto.
    + intros [v Hv]. exists ("Authorization", v). split; [reflexivity|].
      by apply elem_of_map_to_list.
Qed.

Lemma redirectHeaders_header (override : SignatureType)
    (credsGet : error + Value) (req lastRequest : RedirectRequest)
    (via : list RedirectRequest) (order : list (string * list string)) :
  (5 <=? length via)%nat = false ->
  last via = Some lastRequest ->
  (redirectHeaders override credsGet req via order).1
  = (foldl (copyHeader (Host req) (Host lastRequest))
       (ReqHeader req, false) order).1.
Proof.
  intros Hlen Hlast. unfold redirectHeaders. rewrite Hlen, Hlast.
  destruct (foldl _ _ order) as [h reAuth].
  destruct credsGet as [e|value]; [reflexivity|].
  destruct reAuth; [|reflexivity].
  destruct (IsV2 _); reflexivity.
Qed.

(** X18.  With one to four earlier requests, whatever the order in which
    the range visits the headers of the last of them, [redirectHeaders]
    leaves on the request every header it had, with its value, and adds
    each header of the last request that the request lacked, except
    Authorization when the host has changed. *)
Theorem redirectHeaders_merges (override : SignatureType)
    (credsGet : error + Value) (req lastRequest : RedirectRequest)
    (via : list RedirectRequest) (order : list (string * list string))
    (k : string) :
  (length via < 5)%nat ->
  last via = Some lastRequest ->
  order ≡ₚ map_to_list (ReqHeader lastRequest) ->
  (redirectHeaders override credsGet req via order).1 !! k
  = match ReqHeader req !! k with
    | Some v => Some v
    | None =>
        if crossHostAuth (Host req) (Host lastRequest) k then None
        else ReqHeader lastRequest !! k
    end.
Proof.
  intros Hlen Hlast Hperm. apply Nat.leb_gt in Hlen.
  rewrite (redirectHeaders_header _ _ _ _ _ _ Hlen Hlast).
  destruct (copyHeader_fold (Host req) (Host lastRequest) order
              (ReqHeader req) false) as [Hh _].
  cbv zeta in Hh. rewrite Hh.
  destruct (order_of_header _ _ Hperm) as [Hmap _]. by rewrite Hmap.
Qed.

(** X19.  With one to four earlier requests and credentials at hand,
    [redirectHeaders] fails exactly when the host has changed, the last
    request carried an Authorization header, the credentials are not
    anonymous, and the signer in force, the client's override or else the
    credentials' own, is V2. *)
Theorem redirectHeaders_fails_iff (override : SignatureType) (value : Value)
    (req lastRequest : RedirectRequest) (via : list RedirectRequest)
    (order : list (string * list string)) :
  (length via < 5)%nat ->
  last via = Some lastRequest ->
  order ≡ₚ map_to_list (ReqHeader lastRequest) ->
  (redirectHeaders override (inr value) req via order).2 <> None
  <-> (Host req <> Host lastRequest
       /\ is_Some (ReqHeader lastRequest !! "Authorization")
       /\ SignerType value <> SignatureAnonymous
       /\ (override = SignatureV2
           \/ (override = SignatureDefault /\ SignerType value = SignatureV2))).
Proof.
  intros Hlen Hlast Hperm. unfold redirectHeaders.
  apply Nat.leb_gt in Hlen. rewrite Hlen, Hlast.
  destruct (copyHeader_fold (Host req) (Host lastRequest) order
              (ReqHeader req) false) as [_ Hr].
  cbv zeta in Hr.
  destruct (foldl _ _ order) as [h reAuth]. cbn [snd] in Hr.
  destruct (order_of_header _ _ Hperm) as [_ Hauth].
  rewrite orb_false_l in Hr. subst reAuth.
  destruct (String.eqb_spec (Host req) (Host lastRequest)) as [Hhost|Hhost];
    cbn [negb andb].
  - split; [intros H; by destruct H | intros (H & _); by destruct H].
  - destruct (bool_decide_reflect ("Authorization" ∈ order.*1)) as [Hin|Hin].
    + apply Hauth in Hin.
      destruct override, (SignerType value); simpl;
        split; try (intros H; by destruct H);
        try (intros _; repeat split; try assumption; try discriminate;
             (by left) || (right; by split));
        intros (_ & _ & Ha & [Ho | [Ho Hv]]); congruence.
    + split; [intros H; by destruct H|].
      intros (_ & Hsome & _). apply Hauth in Hsome. by destruct Hin.
Qed.

(** X20.  In every case, also when it fails, [redirectHeaders] leaves each
    header the request already had with the value it had. *)
Theorem redirectHeaders_keeps_own_headers (override : SignatureType)
    (credsGet : error + Value) (req : RedirectRequest)
    (via : list RedirectRequest) (order : list (string * list string))
    (k : string) (v : list string) :
  ReqHeader req !! k = Some v ->
  (redirectHeaders override credsGet req via order).1 !! k = Some v.
Proof.
  intros Hk.
  destruct (5 <=? length via)%nat eqn:Hlen;
    [unfold redirectHeaders; by rewrite Hlen|].
  destruct (last via) as [lastRequest|] eqn:Hlast;
    [|unfold redirectHeaders; by rewrite Hlen, Hlast].
  rewrite (redirectHeaders_header _ _ _ _ _ _ Hlen Hlast).
  destruct (copyHeader_fold (Host req) (Host lastRequest) order
              (ReqHeader req) false) as [Hh _].
  cbv zeta in Hh. by rewrite Hh, Hk.
Qed.

(** * The constructors *)

Lemma privateNew_elsewhere (sys : System) (endpoint : string)
    (creds : option Credentials) (secure : bool) (rgn : string)
    (lk : BucketLookupType) :
  rgn <> "local" ->
  privateNew sys endpoint creds secure rgn lk
  = inr (mkFull
           (mkSettings (mkClient "" false false None) None (mkAppInfo "" ""))
           match NewMultiaddr sys endpoint with
           | Some a =>
               match DialArgs sys a with
               | Some (_, host) => host
               | None => endpoint
               end
           | None => endpoint
           end
           creds SignatureDefault secure true "" BucketLookupAuto).
Proof.
  intros Hne. unfold privateNew. apply String.eqb_neq in Hne.
  rewrite Hne. reflexivity.
Qed.

(** X21.  [privateNew] can fail only for the region "local".  For any other
    region it returns a client that does not depend on the region or the
    lookup type it was given: the client has no fixed region and the
    automatic lookup, so [NewWithRegion] returns what [New] returns. *)
Theorem constructors_ignore_region (sys : System)
    (endpoint accessKeyID secretAccessKey : string) (secure : bool)
    (creds : option Credentials) (rgn : string) (lk : BucketLookupType) :
  rgn <> "local" ->
  NewWithRegion sys endpoint accessKeyID secretAccessKey secure rgn
  = New sys endpoint accessKeyID secretAccessKey secure
  /\ privateNew sys endpoint creds secure rgn lk
     = privateNew sys endpoint creds secure "" BucketLookupAuto
  /\ exists clnt : FullClient,
       privateNew sys endpoint creds secure rgn lk = inr clnt
       /\ region (executorClient clnt) = ""
       /\ lookup clnt = BucketLookupAuto.
Proof.
  intros Hne. unfold NewWithRegion, New.
  rewrite !(privateNew_elsewhere _ _ _ _ rgn _ Hne).
  rewrite !(privateNew_elsewhere _ _ _ _ "" _) by discriminate.
  split; [reflexivity|]. split; [reflexivity|].
  eexists. split; [reflexivity|]. split; reflexivity.
Qed.

Lemma privateNew_settings (sys : System) (endpoint : string)
    (creds : option Credentials) (secure : bool) (rgn : string)
    (lk : BucketLookupType) (clnt : FullClient) :
  privateNew sys endpoint creds secure rgn lk = inr clnt ->
  settings clnt
  = mkSettings (mkClient "" false false None) None (mkAppInfo "" "").
Proof.
  unfold privateNew.
  destruct (String.eqb rgn "local").
  - destruct (homedirExpand sys _) as [e|dir]; [discriminate|].
    destruct (osStat sys _) as [e|]; [discriminate|].
    destruct (ReadFile sys _) as [e|api]; [discriminate|].
    intros [= <-]. reflexivity.
  - intros [= <-]. reflexivity.
Qed.

Section ConstructedClients.

Context {K : Collaborators}.

(** X22.  No constructor allocates the bucket location cache.  On a client
    that [privateNew] returned, for whatever arguments, a failed response
    whose body was read and whose decoded error has one of the three region
    codes, with a bucket name in the metadata and a region in the error,
    makes the pass call [Get] through the nil cache pointer: it ends in a
    nil-pointer fault. *)
Theorem constructed_client_faults_on_correction (sys : System)
    (endpoint : string) (creds : option Credentials) (secure : bool)
    (rgn : string) (lk : BucketLookupType) (clnt : FullClient)
    (md : requestMetadata) (resp : Response) (bytes : list byte)
    (s : State) :
  privateNew sys endpoint creds secure rgn lk = inr clnt ->
  cache s = bucketLocCache (executorClient clnt) ->
  ReadAll (RespBody resp) = inr bytes ->
  Code (decoded md resp bytes) = "AuthorizationHeaderMalformed"
  \/ Code (decoded md resp bytes) = "InvalidRegion"
  \/ Code (decoded md resp bytes) = "AccessDenied" ->
  bucketName md <> "" ->
  Region (decoded md resp bytes) <> "" ->
  bucketLocCache (executorClient clnt) = None
  /\ onFailureStatus (executorClient clnt) md resp s
     = Panic NilPointerDereference (afterBuffering resp bytes s).
Proof.
  intros Hnew Hcache Hread Hcode Hbucket Hhint.
  unfold executorClient in *.
  rewrite (privateNew_settings _ _ _ _ _ _ _ Hnew) in *. cbn [client] in *.
  split; [reflexivity|].
  rewrite (onFailureStatus_buffered _ _ _ _ _ Hread).
  unfold regionCorrection. cbn [region String.eqb].
  rewrite (isRegionCode_true _ Hcode).
  rewrite (eqb_empty_false _ Hbucket), (eqb_empty_false _ Hhint).
  cbn [negb andb].
  change (cache (afterBuffering resp bytes s)) with (cache s).
  rewrite Hcache. reflexivity.
Qed.

End ConstructedClients.

(** * [StatObject] *)

Lemma StatObject_statObject (sw : StatWorld) (bucket object : string) :
  StatObject sw bucket object = statObject sw bucket object.
Proof.
  unfold StatObject, statObject.
  destruct (CheckValidBucketName sw bucket); [reflexivity|].
  destruct (CheckValidObjectName sw object); reflexivity.
Qed.

(** X23.  [StatObject] never returns an error together with object data:
    when the error is non-nil the info is the zero value. *)
Theorem StatObject_error_has_no_info (sw : StatWorld)
    (bucket object : string) (info : ObjectInfo) (e : error) :
  StatObject sw bucket object = StatReturned info (Some e) ->
  info = zeroObjectInfo.
Proof.
  rewrite StatObject_statObject. unfold statObject.
  destruct (CheckValidBucketName sw bucket); [by intros [= <- _]|].
  destruct (CheckValidObjectName sw object); [by intros [= <- _]|].
  destruct (credsGet sw) as [e0|creds]; [by intros [= <- _]|].
  destruct (Exec sw _) as [e0|objs]; [by intros [= <- _]|].
  destruct (ObjectList objs); discriminate.
Qed.

(** X24.  When the names are valid, the credentials are at hand and the
    gateway's answer decodes, [StatObject] indexes the first object of the
    answer without looking at its length: an answer without objects ends
    in an index-out-of-range panic, and any other answer is reported by its
    first object alone, with the zero time when its creation time does not
    parse. *)
Theorem StatObject_first_object (sw : StatWorld) (bucket object : string)
    (creds : Value) (objs : Objects) :
  CheckValidBucketName sw bucket = None ->
  CheckValidObjectName sw object = None ->
  credsGet sw = inr creds ->
  Exec sw (mkRequestBuilder "lfs/head_object" [bucket; object]
             [("address", AccessKeyID creds)]) = inr objs ->
  StatObject sw bucket object
  = match ObjectList objs with
    | [] => StatIndexOutOfRange
    | first :: _ =>
        StatReturned
          (mkObjectInfo (MD5 first) (ObjectName first)
             match timeParse sw (Ctime first) with
             | inr t => t
             | inl _ => ZeroTime
             end
             (ObjectSize first))
          None
    end.
Proof.
  intros Hb Ho Hc He. rewrite StatObject_statObject. unfold statObject.
  rewrite Hb, Ho, Hc. unfold Option_, Request_. cbn [command args options app].
  rewrite He. reflexivity.
Qed.

(** * The [String] methods *)

Lemma append_nil_r (s : string) : s +:+ "" = s.
Proof.
  induction s as [|a s IH]; [reflexivity|].
  change (String a (s +:+ "") = String a s). by rewrite IH.
Qed.

Lemma append_assoc (s1 s2 s3 : string) :
  (s1 +:+ s2) +:+ s3 = s1 +:+ (s2 +:+ s3).
Proof.
  induction s1 as [|a s1 IH]; [reflexivity|].
  change (String a ((s1 +:+ s2) +:+ s3) = String a (s1 +:+ (s2 +:+ s3))).
  by rewrite IH.
Qed.

Lemma StringList_fold (acc : string) (l : list string) :
  foldl (fun buffer s => (buffer +:+ s) +:+ newline) acc l
  = acc +:+ StringList_String l.
Proof.
  unfold StringList_String. revert acc.
  induction l as [|s l IH] using rev_ind; intros acc.
  - simpl. symmetry. apply append_nil_r.
  - rewrite !foldl_snoc, IH. by rewrite !append_assoc.
Qed.

(** X25.  [StringList.String] of two lists one after the other is the two
    texts one after the other, and [PeerList.String] is
    [StringList.String] of the peers' own texts. *)
Theorem String_methods_compose (l1 l2 : list string)
    (peers : list PeerState) :
  StringList_String (l1 ++ l2)
  = StringList_String l1 +:+ StringList_String l2
  /\ PeerList_String peers
     = StringList_String (map PeerState_String peers).
Proof.
  split.
  - unfold StringList_String at 1. rewrite foldl_app.
    fold (StringList_String l1). apply StringList_fold.
  - unfold PeerList_String, StringList_String.
    induction peers as [|ps peers IH] using rev_ind; [reflexivity|].
    rewrite map_app. simpl. rewrite !foldl_snoc, IH.
    by rewrite append_assoc.
Qed.

(** * [fillRandom] *)

(** What the inner loop leaves in the slice, given enough fuel. *)
Lemma fillChunk_spec (fuel : nat) (p : list Z) (i j : nat) (val : Z) :
  (7 <= fuel + j)%nat ->
  length (fillChunk fuel p i j val) = length p
  /\ forall k : nat,
       fillChunk fuel p i j val !! k
       = if decide ((i + j <= k < i + 7)%nat /\ (k < length p)%nat)
         then Some (Z.land (Z.shiftr val (Z.of_nat (8 * (k - (i + j))))) 255)
         else p !! k.
Proof.
  revert p j val. induction fuel as [|fuel IH]; intros p j val Hfuel.
  - simpl. split; [reflexivity|]. intros k.
    case_decide; [lia | reflexivity].
  - cbn [fillChunk].
    destruct (Nat.ltb_spec (i + j) (length p)) as [Hin|Hout];
      [destruct (Nat.ltb_spec j 7) as [Hj|Hj]|]; cbn [andb].
    + destruct (IH (<[(i + j)%nat := Z.land val 255]> p) (S j)
                  (Z.shiftr val 8) ltac:(lia)) as [Hlen Hk].
      rewrite length_insert in Hlen, Hk. split; [exact Hlen|].
      intros k. rewrite Hk.
      destruct (decide (k = i + j)%nat) as [->|Hne].
      * rewrite list_lookup_insert_eq by exact Hin.
        repeat case_decide; try lia.
        replace (i + j - (i + j))%nat with 0%nat by lia.
        by rewrite Z.shiftr_0_r.
      * rewrite list_lookup_insert_ne by lia.
        repeat case_decide; try lia; [|reflexivity].
        rewrite Z.shiftr_shiftr by lia. do 3 f_equal. lia.
    + split; [reflexivity|]. intros k. case_decide; [lia | reflexivity].
    + split; [reflexivity|]. intros k. case_decide; [lia | reflexivity].
Qed.

Lemma fillFrom_spec (fuel : nat) (rnd : nat -> Z) (calls : nat)
    (p : list Z) (i : nat) :
  i = (7 * calls)%nat ->
  (length p <= i + fuel)%nat ->
  length (fillFrom fuel rnd calls p i) = length p
  /\ forall k : nat,
       (k < length p)%nat ->
       fillFrom fuel rnd calls p i !! k
       = if decide (k < i)%nat then p !! k
         else Some (Z.land
                      (Z.shiftr (rnd (k / 7)%nat)
                         (Z.of_nat (8 * (k mod 7))))
                      255).
Proof.
  revert calls p i. induction fuel as [|fuel IH]; intros calls p i Hi Hfuel.
  - simpl. split; [reflexivity|]. intros k Hk. case_decide; [reflexivity|lia].
  - cbn [fillFrom]. destruct (Nat.ltb_spec i (length p)) as [Hin|Hout].
    + destruct (fillChunk_spec 7 p i 0 (rnd calls) ltac:(lia))
        as [Hlen1 Hk1].
      destruct (IH (S calls) (fillChunk 7 p i 0 (rnd calls)) (i + 7)%nat
                  ltac:(lia) ltac:(lia)) as [Hlen Hk].
      rewrite Hlen1 in Hlen, Hk. split; [exact Hlen|].
      intros k Hklen. rewrite (Hk k Hklen), Hk1.
      repeat case_decide; try lia; try reflexivity.
      assert (Hdiv : (k / 7 = calls)%nat).
      { symmetry. apply (Nat.div_unique k 7 calls (k - i)); lia. }
      assert (Hmod : (k mod 7 = k - i)%nat).
      { symmetry. apply (Nat.mod_unique k 7 calls (k - i)); lia. }
      rewrite Hdiv, Hmod. do 3 f_equal. lia.
    + split; [reflexivity|]. intros k Hk. case_decide; [reflexivity|lia].
Qed.

(** X26.  [fillRandom] keeps the length of the slice and overwrites every
    byte of it: the byte at position [k] is byte number [k mod 7], counted
    from the low end, of draw number [k / 7]. *)
Theorem fillRandom_bytes (rnd : nat -> Z) (p : list Z) :
  length (fillRandom rnd p) = length p
  /\ forall k : nat,
       (k < length p)%nat ->
       fillRandom rnd p !! k
       = Some (Z.land
                 (Z.shiftr (rnd (k / 7)%nat) (Z.of_nat (8 * (k mod 7))))
                 255).
Proof.
  unfold fillRandom.
  destruct (fillFrom_spec (length p) rnd 0 p 0 eq_refl ltac:(lia))
    as [Hlen Hk].
  split; [exact Hlen|]. intros k Hklen. rewrite (Hk k Hklen).
  case_decide; [lia | reflexivity].
Qed.

(** * Closed instances of the further properties *)

Lemma returns_exactly_one_witness :
  0 < reqRetry (K := gatewayBusy) (noBody "bucket01" "")
  /\ oneOf (Some okResponse) None.
Proof.
  split; [reflexivity|].
  apply (returns_exactly_one (K := gatewayBusy) (Some someRequest)
           (clientWith ∅) background "GET" (noBody "bucket01" "") busyTwice
           (Some okResponse) None
           (afterDo (noBody "bucket01" "") 3 (busyTwice 3) sentRequest
              okResponse afterTwoBusy)); reflexivity.
Defined.

Lemma nil_nil_iff_empty_budget_witness :
  reqRetry (K := gatewayNoRetry) (noBody "bucket01" "") <= 0
  /\ exists s : State,
       executeMethodWith (K := gatewayNoRetry) (Some someRequest)
         (clientWith ∅) background "GET" (noBody "bucket01" "")
         (always okResponse)
       = Returned None None s.
Proof.
  assert (Hle : reqRetry (K := gatewayNoRetry) (noBody "bucket01" "") <= 0)
    by (cbv; discriminate).
  split; [exact Hle|].
  exact (proj2 (nil_nil_iff_empty_budget (K := gatewayNoRetry)
                  (Some someRequest) (clientWith ∅) background "GET"
                  (noBody "bucket01" "") (always okResponse)) Hle).
Defined.

Lemma fixed_region_witness :
  region regionalClient <> ""
  /\ cache (finalState
              (executeMethodWith (K := gatewayEU) (Some someRequest)
                 regionalClient background "GET" (noBody "b" "us-east-1")
                 (always forbidden)))
     = Some (mkCache {[ "b" := "us-east-1" ]})
  /\ mdLocation (finalState
                   (executeMethodWith (K := gatewayEU) (Some someRequest)
                      regionalClient background "GET"
                      (noBody "b" "us-east-1") (always forbidden)))
     = "us-east-1".
Proof.
  split; [discriminate|].
  apply (fixed_region_no_correction (K := gatewayEU) (Some someRequest)
           regionalClient background "GET" (noBody "b" "us-east-1")
           (always forbidden)).
  discriminate.
Defined.

Lemma body_closed_witness :
  closesBody (withBody fileBody) = true
  /\ exists evs : list Event,
       trace (finalState
                (executeMethod (K := gatewayBusy) (clientWith ∅) background
                   "PUT" (withBody fileBody) (always okResponse)))
       = (evs ++ [EvCloseBody])%list.
Proof.
  split; [reflexivity|].
  exact (proj2 (body_closed_exactly_once (K := gatewayBusy) None
                  (clientWith ∅) background "PUT" (withBody fileBody)
                  (always okResponse)) eq_refl).
Defined.

Lemma Delete_removes_witness :
  "photos" <> "music"
  /\ Cache.Get (Cache.Delete (mkCache {[ "photos" := "us-east-1" ]}) "music")
       "photos"
     = Cache.Get (mkCache {[ "photos" := "us-east-1" ]}) "photos"
  /\ Cache.Delete (mkCache {[ "photos" := "us-east-1" ]}) "music"
     = mkCache {[ "photos" := "us-east-1" ]}.
Proof.
  split; [discriminate|].
  destruct (Delete_removes (mkCache {[ "photos" := "us-east-1" ]}) "music")
    as (_ & Hother & Hmissing).
  split; [apply Hother; discriminate | apply Hmissing; reflexivity].
Defined.

Lemma Set_then_Delete_witness :
  snd (Cache.Get (mkCache {[ "photos" := "us-east-1" ]}) "music") = false
  /\ Cache.Delete
       (Cache.Set_ (mkCache {[ "photos" := "us-east-1" ]}) "music"
          "eu-west-1") "music"
     = mkCache {[ "photos" := "us-east-1" ]}.
Proof.
  split; [reflexivity|].
  apply (Set_then_Delete (mkCache {[ "photos" := "us-east-1" ]}) "music"
           "eu-west-1").
  reflexivity.
Defined.

Lemma Set_commutes_witness :
  "photos" <> "music"
  /\ Cache.Set_ (Cache.Set_ newBucketLocationCache "photos" "us-east-1")
       "music" "eu-west-1"
     = Cache.Set_ (Cache.Set_ newBucketLocationCache "music" "eu-west-1")
         "photos" "us-east-1".
Proof.
  split; [discriminate|].
  apply (proj2 (Set_overwrites_and_commutes newBucketLocationCache "photos"
                  "music" "us-east-1" "eu-west-1")).
  discriminate.
Defined.

Lemma do_response_witness :
  do (K := gatewayBusy) (clientWith ∅) sentRequest (always okResponse 1%nat)
  = (Some okResponse, None)
  /\ transportResult (always okResponse 1%nat) = (Some okResponse, None).
Proof.
  split; [reflexivity|].
  exact (proj1 (proj2 (do_response_from_transport (K := gatewayBusy)
                         (clientWith ∅) sentRequest (always okResponse 1%nat)
                         okResponse None eq_refl))).
Defined.

Lemma do_transport_error_witness :
  occursIn "EOF" "unexpected EOF"
  /\ do (K := gatewayBusy) (clientWith ∅) sentRequest
       (mkAttemptEnv None (Some okResponse, Some eofError) None)
     = (None,
        Some (UrlError "Get" "http://127.0.0.1:6711/"
                "Connection closed by foreign host http://127.0.0.1:6711/. Retry again.")).
Proof.
  assert (Hocc : occursIn "EOF" "unexpected EOF")
    by (exists "unexpected ", ""; reflexivity).
  split; [exact Hocc|].
  exact (proj1 (do_transport_error (K := gatewayBusy) (clientWith ∅)
                  sentRequest
                  (mkAttemptEnv None (Some okResponse, Some eofError) None)
                  (Some okResponse) eofError eq_refl)
           "Get" "http://127.0.0.1:6711/" "unexpected EOF" eq_refl Hocc).
Defined.

Lemma processBucketLocationResponse_either_witness :
  exists (location : string) (e : option error),
    processBucketLocationResponse (K := gatewayNoHint) (Some forbidden) "b"
    = Ok (location, e)
    /\ (e = None <-> location <> "").
Proof.
  exact (processBucketLocationResponse_either (K := gatewayNoHint) forbidden
           "b").
Defined.

Lemma trace_switches_invariant_witness :
  isTraceEnabled (client (freshSettings (clientWith ∅))) = false
  /\ isTraceEnabled
       (client (traceCalls sampleTraceCalls (freshSettings (clientWith ∅))))
     = true
  /\ traceOutput (traceCalls sampleTraceCalls (freshSettings (clientWith ∅)))
     <> None.
Proof.
  split; [reflexivity|]. split; [reflexivity|].
  exact (proj1 (trace_switches_invariant sampleTraceCalls
                  (freshSettings (clientWith ∅)) eq_refl eq_refl) eq_refl).
Defined.

Lemma trace_switches_and_do_witness :
  StatusCode okResponse = 200
  /\ do (K := gatewayBusy)
       (client (TraceOn None
                  (TraceErrorsOnlyOn None (freshSettings (clientWith ∅)))))
       sentRequest
       (mkAttemptEnv None (Some okResponse, None)
          (Some (ErrorString "broken pipe")))
     = (Some okResponse, None).
Proof.
  split; [reflexivity|].
  exact (proj1 (proj2 (trace_switches_and_do (K := gatewayBusy)
                         (freshSettings (clientWith ∅)) sentRequest None None
                         None (Some (ErrorString "broken pipe"))
                         (None, None) okResponse fatalError)) eq_refl).
Defined.

Lemma sample_order :
  reverse (map_to_list (ReqHeader original))
  ≡ₚ map_to_list (ReqHeader original).
Proof. apply reverse_Permutation. Qed.

Lemma redirectHeaders_merges_witness :
  (redirectHeaders SignatureDefault (inl fatalError) redirected [original]
     (reverse (map_to_list (ReqHeader original)))).1 !! "X-Amz-Date"
  = Some ["20200101"]
  /\ (redirectHeaders SignatureDefault (inl fatalError) redirected [original]
        (reverse (map_to_list (ReqHeader original)))).1 !! "Authorization"
     = None.
Proof.
  split.
  - exact (redirectHeaders_merges SignatureDefault (inl fatalError)
             redirected original [original]
             (reverse (map_to_list (ReqHeader original))) "X-Amz-Date"
             ltac:(simpl; lia) eq_refl sample_order).
  - exact (redirectHeaders_merges SignatureDefault (inl fatalError)
             redirected original [original]
             (reverse (map_to_list (ReqHeader original))) "Authorization"
             ltac:(simpl; lia) eq_refl sample_order).
Defined.

Lemma redirectHeaders_fails_witness :
  Host redirected <> Host original
  /\ (redirectHeaders SignatureDefault (inr v2Value) redirected [original]
        (reverse (map_to_list (ReqHeader original)))).2 <> None.
Proof.
  assert (Hhost : Host redirected <> Host original) by discriminate.
  split; [exact Hhost|].
  apply (proj2 (redirectHeaders_fails_iff SignatureDefault v2Value redirected
                  original [original]
                  (reverse (map_to_list (ReqHeader original)))
                  ltac:(simpl; lia) eq_refl sample_order)).
  split; [exact Hhost|]. split; [by eexists|]. split; [discriminate|].
  right. by split.
Defined.

Lemma redirectHeaders_keeps_witness :
  ReqHeader redirected !! "Accept" = Some ["*/*"]
  /\ (redirectHeaders SignatureV2 (inr v2Value) redirected [original]
        (map_to_list (ReqHeader original))).1 !! "Accept"
     = Some ["*/*"].
Proof.
  split; [reflexivity|].
  apply (redirectHeaders_keeps_own_headers SignatureV2 (inr v2Value)
           redirected [original] (map_to_list (ReqHeader original)) "Accept"
           ["*/*"]).
  reflexivity.
Defined.

Lemma constructors_ignore_region_witness :
  "eu-west-1" <> "local"
  /\ NewWithRegion bareSystem "127.0.0.1:6711" "0xD604" "123456" true
       "eu-west-1"
     = New bareSystem "127.0.0.1:6711" "0xD604" "123456" true.
Proof.
  split; [discriminate|].
  apply (proj1 (constructors_ignore_region bareSystem "127.0.0.1:6711"
                  "0xD604" "123456" true None "eu-west-1" BucketLookupDNS
                  ltac:(discriminate))).
Defined.

Lemma constructed_client_witness :
  exists clnt : FullClient,
    New bareSystem "127.0.0.1:6711" "0xD604" "123456" true = inr clnt
    /\ bucketLocCache (executorClient clnt) = None
    /\ onFailureStatus (K := gatewayEU) (executorClient clnt)
         (noBody "b" "") forbidden
         (initialState (executorClient clnt) (noBody "b" ""))
       = Panic NilPointerDereference
           (afterBuffering forbidden deniedBytes
              (initialState (executorClient clnt) (noBody "b" ""))).
Proof.
  eexists. split; [reflexivity|].
  apply (constructed_client_faults_on_correction (K := gatewayEU) bareSystem
           "127.0.0.1:6711" (Some (StaticV4 "0xD604" "123456" "")) true ""
           BucketLookupAuto _ (noBody "b" "") forbidden deniedBytes).
  - reflexivity.
  - reflexivity.
  - reflexivity.
  - right; right; reflexivity.
  - discriminate.
  - discriminate.
Defined.

Lemma StatObject_error_witness :
  StatObject (statWorld (inl fatalError)) "bucket01" "object01"
  = StatReturned zeroObjectInfo (Some fatalError)
  /\ zeroObjectInfo = zeroObjectInfo.
Proof.
  split; [reflexivity|].
  apply (StatObject_error_has_no_info (statWorld (inl fatalError)) "bucket01"
           "object01" zeroObjectInfo fatalError).
  reflexivity.
Defined.

(** An answer without objects: the call panics. *)
Lemma StatObject_first_object_witness :
  StatObject (statWorld (inr (mkObjects "HeadObject" []))) "bucket01"
    "object01"
  = StatIndexOutOfRange.
Proof.
  apply (StatObject_first_object
           (statWorld (inr (mkObjects "HeadObject" []))) "bucket01"
           "object01" (mkValue "0xD604" "123456" SignatureV4)
           (mkObjects "HeadObject" [])); reflexivity.
Defined.

Lemma fillRandom_bytes_witness :
  (8 < length (repeat 0 9))%nat
  /\ fillRandom countingDraws (repeat 0 9) !! 8%nat = Some 9.
Proof.
  assert (Hk : (8 < length (repeat 0 9))%nat) by (simpl; lia).
  split; [exact Hk|].
  exact (proj2 (fillRandom_bytes countingDraws (repeat 0 9)) 8%nat Hk).
Defined.

(** The block of lines 628-692 on a 403 decoded as [AccessDenied] with the
    region [eu-west-1], for the bucket [b] cached as [us-east-1]. *)
Lemma failed_response_corrects_cache_witness :
  Cache.Get (mkCache {[ "b" := "us-east-1" ]}) "b" = ("us-east-1", true)
  /\ onFailureStatus (K := gatewayEU) (clientWith {[ "b" := "us-east-1" ]})
       (noBody "b" "us-east-1") forbidden
       (initialState (clientWith {[ "b" := "us-east-1" ]})
          (noBody "b" "us-east-1"))
     = Continue
         (logEv (EvCacheSet "b" "eu-west-1")
            (setCache
               (Some (Cache.Set_ (mkCache {[ "b" := "us-east-1" ]}) "b"
                        "eu-west-1"))
               (afterBuffering forbidden deniedBytes
                  (initialState (clientWith {[ "b" := "us-east-1" ]})
                     (noBody "b" "us-east-1"))))).
Proof.
  split; [reflexivity|].
  apply (proj1 (failed_response_corrects_cache (K := gatewayEU)
                  (clientWith {[ "b" := "us-east-1" ]})
                  (noBody "b" "us-east-1") forbidden
                  (initialState (clientWith {[ "b" := "us-east-1" ]})
                     (noBody "b" "us-east-1"))
                  deniedBytes (mkCache {[ "b" := "us-east-1" ]}) "us-east-1"
                  eq_refl eq_refl (or_intror (or_intror eq_refl))
                  ltac:(discriminate) eq_refl eq_refl)).
  discriminate.
Defined.

(** The same block and answer, for a call without a bucket name whose
    region is [us-east-1], and for the bucket [b] without a cache entry. *)
Lemma failed_response_without_entry_witness :
  onFailureStatus (K := gatewayEU) (clientWith ∅) (noBody "" "us-east-1")
    forbidden (initialState (clientWith ∅) (noBody "" "us-east-1"))
  = Continue
      (setLocation "eu-west-1"
         (afterBuffering forbidden deniedBytes
            (initialState (clientWith ∅) (noBody "" "us-east-1"))))
  /\ onFailureStatus (K := gatewayEU) (clientWith ∅) (noBody "b" "us-east-1")
       forbidden (initialState (clientWith ∅) (noBody "b" "us-east-1"))
     = Break
         (afterBuffering forbidden deniedBytes
            (initialState (clientWith ∅) (noBody "b" "us-east-1"))).
Proof.
  split.
  - apply (proj2 (proj1 (failed_response_without_entry (K := gatewayEU)
                           (clientWith ∅) (noBody "" "us-east-1") forbidden
                           (initialState (clientWith ∅)
                              (noBody "" "us-east-1"))
                           deniedBytes eq_refl eq_refl
                           (or_intror (or_intror eq_refl))
                           ltac:(discriminate)) eq_refl)).
    discriminate.
  - apply (proj2 (failed_response_without_entry (K := gatewayEU)
                    (clientWith ∅) (noBody "b" "us-east-1") forbidden
                    (initialState (clientWith ∅) (noBody "b" "us-east-1"))
                    deniedBytes eq_refl eq_refl
                    (or_intror (or_intror eq_refl)) ltac:(discriminate))
             (mkCache ∅) "").
    + discriminate.
    + reflexivity.
    + reflexivity.
Defined.

(** The same block on a 403 whose body breaks off, and on a 503 whose body
    is read to its end. *)
Lemma failed_response_buffered_witness :
  onFailureStatus (K := gatewayBusy) (clientWith ∅) (noBody "bucket01" "")
    truncated (initialState (clientWith ∅) (noBody "bucket01" ""))
  = Return None (Some (ErrorString "unexpected EOF"))
      (logEv (EvCloseResponse (RespBody truncated))
         (logEv (EvReadAll (RespBody truncated))
            (initialState (clientWith ∅) (noBody "bucket01" ""))))
  /\ res (controlState
            (onFailureStatus (K := gatewayBusy) (clientWith ∅)
               (noBody "bucket01" "") unavailable
               (initialState (clientWith ∅) (noBody "bucket01" ""))))
     = Some (mkResponse 503 (Buffered (list_byte_of_string "busy") 0)).
Proof.
  split.
  - apply (proj1 (failed_response_buffered (K := gatewayBusy) (clientWith ∅)
                    (noBody "bucket01" "") truncated
                    (initialState (clientWith ∅) (noBody "bucket01" "")))).
    reflexivity.
  - apply (proj1 (proj2 (failed_response_buffered (K := gatewayBusy)
                           (clientWith ∅) (noBody "bucket01" "") unavailable
                           (initialState (clientWith ∅)
                              (noBody "bucket01" "")))
                    (list_byte_of_string "busy") eq_refl)).
Defined.
